(** * Chat route: stream bridge, history reconciler and request handling

    A shallow embedding of [src/app/api/chat/route.ts].  JavaScript values
    that cross the route (event payloads, request bodies, file descriptors)
    are JSON values; text is a byte string holding the UTF-8 form that
    [TextEncoder.encode] puts on the wire. *)

From Stdlib Require Import List String Ascii NArith Arith Bool Lia DecimalString Sorted.
Import ListNotations.
Local Open Scope string_scope.

(** ** JavaScript values *)

Module Js.

(** The value [JSON.parse] builds.  [JNum] carries the text both
    [JSON.stringify] and string coercion print for the number; [JObj]
    lists the own properties in enumeration order. *)
#[local] Unset Elimination Schemes.
Inductive json : Type :=
| JNull
| JBool (b : bool)
| JNum (text : string)
| JStr (s : string)
| JArr (items : list json)
| JObj (props : list (string * json)).
#[local] Set Elimination Schemes.

Definition dquote : ascii := "034"%char.
Definition newline : ascii := "010"%char.
Definition backslash : ascii := "\"%char.

Definition str1 (c : ascii) : string := String c EmptyString.

Definition hex_digit (n : N) : ascii :=
  nth (N.to_nat n) (list_ascii_of_string "0123456789abcdef") "0"%char.

(** [QuoteJSONString] of ECMA-262, one code unit at a time. *)
Definition quote_char (c : ascii) : string :=
  let n := N_of_ascii c in
  if Ascii.eqb c dquote then String backslash (str1 dquote)
  else if Ascii.eqb c backslash then String backslash (str1 backslash)
  else if N.eqb n 8 then "\b"
  else if N.eqb n 12 then "\f"
  else if N.eqb n 10 then "\n"
  else if N.eqb n 13 then "\r"
  else if N.eqb n 9 then "\t"
  else if N.ltb n 32 then
    "\u00" ++ String (hex_digit (N.div n 16)) (str1 (hex_digit (N.modulo n 16)))
  else str1 c.

Fixpoint quote_body (s : string) : string :=
  match s with
  | EmptyString => EmptyString
  | String c rest => quote_char c ++ quote_body rest
  end.

Definition quote (s : string) : string :=
  String dquote (quote_body s ++ str1 dquote).

(** [JSON.stringify(v)] without indentation. *)
Fixpoint stringify (v : json) : string :=
  match v with
  | JNull => "null"
  | JBool true => "true"
  | JBool false => "false"
  | JNum text => text
  | JStr s => quote s
  | JArr items => "[" ++ String.concat "," (map stringify items) ++ "]"
  | JObj props =>
      "{" ++ String.concat ","
               (map (fun kv => quote (fst kv) ++ ":" ++ stringify (snd kv)) props)
          ++ "}"
  end.

(** A property read, [obj.key]: [None] is [undefined]. *)
Fixpoint get (key : string) (props : list (string * json)) : option json :=
  match props with
  | [] => None
  | (k, v) :: rest => if String.eqb k key then Some v else get key rest
  end.

(** An object literal [{k1: e1, ...}] as [JSON.stringify] sees it: a
    property whose value is [undefined] is left out. *)
Fixpoint literal (fields : list (string * option json)) : list (string * json) :=
  match fields with
  | [] => []
  | (k, Some v) :: rest => (k, v) :: literal rest
  | (_, None) :: rest => literal rest
  end.

(** String coercion, as [+=] on a string applies it to its right operand. *)
Fixpoint ToString (v : json) : string :=
  match v with
  | JNull => "null"
  | JBool true => "true"
  | JBool false => "false"
  | JNum text => text
  | JStr s => s
  | JArr items =>
      String.concat ","
        (map (fun e => match e with JNull => EmptyString | _ => ToString e end) items)
  | JObj _ => "[object Object]"
  end.

Definition ToString_opt (v : option json) : string :=
  match v with
  | None => "undefined"
  | Some j => ToString j
  end.

(** [v || fallback] on an optional string: [undefined] and the empty
    string are falsy. *)
Definition or_else (v fallback : option string) : option string :=
  match v with
  | Some EmptyString | None => fallback
  | Some s => Some s
  end.

(** [v ?? fallback]. *)
Definition nullish {A} (v : option A) (fallback : A) : A :=
  match v with
  | Some x => x
  | None => fallback
  end.

(** Structural induction on JSON values, through arrays and objects. *)
Section JsonInduction.

Variable P : json -> Prop.
Hypothesis P_null : P JNull.
Hypothesis P_bool : forall b, P (JBool b).
Hypothesis P_num : forall text, P (JNum text).
Hypothesis P_str : forall s, P (JStr s).
Hypothesis P_arr : forall items, Forall P items -> P (JArr items).
Hypothesis P_obj : forall props, Forall (fun kv => P (snd kv)) props -> P (JObj props).

Fixpoint json_induction (v : json) : P v :=
  match v with
  | JNull => P_null
  | JBool b => P_bool b
  | JNum text => P_num text
  | JStr s => P_str s
  | JArr items =>
      P_arr items
        ((fix each (l : list json) : Forall P l :=
            match l with
            | [] => Forall_nil P
            | x :: rest => Forall_cons x (json_induction x) (each rest)
            end) items)
  | JObj props =>
      P_obj props
        ((fix each (l : list (string * json)) : Forall (fun kv => P (snd kv)) l :=
            match l with
            | [] => Forall_nil _
            | kv :: rest => Forall_cons kv (json_induction (snd kv)) (each rest)
            end) props)
  end.

End JsonInduction.

End Js.

Import Js.

(** ** Node primitives the route calls *)

Module Node.

(** [buf.toString('hex')]. *)
Definition hex_byte (b : Byte.byte) : string :=
  let n := Byte.to_N b in
  String (hex_digit (N.div n 16)) (str1 (hex_digit (N.modulo n 16))).

Fixpoint hex (buf : list Byte.byte) : string :=
  match buf with
  | [] => EmptyString
  | b :: rest => hex_byte b ++ hex rest
  end.

(** [crypto.randomBytes(n)]: the next [n] bytes of the entropy source. *)
Definition randomBytes (entropy : nat -> Byte.byte) (drawn n : nat) : list Byte.byte :=
  map entropy (seq drawn n).

Definition is_hex_char (c : ascii) : bool :=
  let n := N_of_ascii c in
  (N.leb 48 n && N.leb n 57) || (N.leb 97 n && N.leb n 102).

Fixpoint all_chars (p : ascii -> bool) (s : string) : bool :=
  match s with
  | EmptyString => true
  | String c rest => p c && all_chars p rest
  end.

(** The writable side of the response [TransformStream].  A [write] or
    [close] on a closed writer is rejected and leaves the chunks as they
    are; the route never looks at the returned promise. *)
Record Writer := mkWriter {
  chunks : list string;
  closed : bool;
  rejected : nat
}.

Definition fresh_writer : Writer := mkWriter [] false 0.

Definition write (w : Writer) (chunk : string) : Writer :=
  if closed w then mkWriter (chunks w) true (S (rejected w))
  else mkWriter (chunks w ++ [chunk]) false (rejected w).

Definition close (w : Writer) : Writer :=
  if closed w then mkWriter (chunks w) true (S (rejected w))
  else mkWriter (chunks w) true (rejected w).

End Node.

Import Node.

(** ** Storage *)

Inductive Role := user | assistant | source.

Module Chat.
(** Modelled from the spec: the [chats] table of [@/lib/db/schema], which
    is not among the sources.  [files] holds the derived file descriptors,
    [None] being a null column. *)
Record t := mk {
  id : string;
  title : string;
  createdAt : string;
  focusMode : string;
  files : option (list json)
}.
End Chat.

Module Msg.
(** Modelled from the spec: the [messages] table of [@/lib/db/schema].
    [id] is the sequence number storage assigns; [content] and [sources]
    are absent when the insert gives no value for them. *)
Record t := mk {
  id : nat;
  content : option string;
  chatId : string;
  messageId : string;
  role : Role;
  sources : option json;
  createdAt : string
}.
End Msg.

Record Store := mkStore {
  chats : list Chat.t;
  messages : list Msg.t;
  next_id : nat
}.

(** A statement built with the query builder.  Building one touches
    nothing: only [execute] (or awaiting the builder) runs it. *)
Inductive Statement :=
| insert_chat (values : Chat.t)
| update_chat_files (files : option (list json)) (where_id : string)
| insert_message (content : option string) (chatId messageId : string)
    (role : Role) (sources : option json) (createdAt : string)
| delete_messages (gt_id : nat) (eq_chatId : string).

Definition set_files (files : option (list json)) (c : Chat.t) : Chat.t :=
  Chat.mk (Chat.id c) (Chat.title c) (Chat.createdAt c) (Chat.focusMode c) files.

Definition execute (q : Statement) (s : Store) : Store :=
  match q with
  | insert_chat values => mkStore (chats s ++ [values]) (messages s) (next_id s)
  | update_chat_files files where_id =>
      mkStore
        (map (fun c => if String.eqb (Chat.id c) where_id then set_files files c else c)
             (chats s))
        (messages s) (next_id s)
  | insert_message content chatId messageId role sources createdAt =>
      mkStore (chats s)
        (messages s ++ [Msg.mk (next_id s) content chatId messageId role sources createdAt])
        (S (next_id s))
  | delete_messages gt_id eq_chatId =>
      mkStore (chats s)
        (filter (fun m => negb (Nat.ltb gt_id (Msg.id m) && String.eqb (Msg.chatId m) eq_chatId))
                (messages s))
        (next_id s)
  end.

(** [db.query.chats.findFirst({ where: eq(chats.id, id) })]. *)
Definition findFirst_chat (id : string) (s : Store) : option Chat.t :=
  find (fun c => String.eqb (Chat.id c) id) (chats s).

(** [db.query.messages.findFirst({ where: eq(messages.messageId, mid) })]:
    the first row, in table order, with that [messageId]. *)
Definition findFirst_message (mid : string) (s : Store) : option Msg.t :=
  find (fun m => String.eqb (Msg.messageId m) mid) (messages s).

(** What the process shares between the two tasks of a turn: storage, the
    entropy already drawn and the number of clock readings taken. *)
Record World := mkWorld {
  store : Store;
  drawn : nat;
  ticks : nat
}.

Section Process.

Variable entropy : nat -> Byte.byte.
Variable Date_toString : nat -> string.
Variable getFileDetails : string -> json.

(** [crypto.randomBytes(7).toString('hex')]. *)
Definition random_id (w : World) : string * World :=
  (hex (randomBytes entropy (drawn w) 7), mkWorld (store w) (drawn w + 7) (ticks w)).

(** [new Date().toString()]. *)
Definition now (w : World) : string * World :=
  (Date_toString (ticks w), mkWorld (store w) (drawn w) (S (ticks w))).

Definition run_statement (q : Statement) (w : World) : World :=
  mkWorld (execute q (store w)) (drawn w) (ticks w).

(** *** Stream bridge: [handleEmitterEvents] *)

Record Bridge := mkBridge {
  recievedMessage : string;
  aiMessageId : string;
  chatId : string;
  writer : Writer;
  world : World
}.

(** An event of the answer stream; the [data] and [error] listeners see
    their argument after [JSON.parse], as an object. *)
Inductive Event :=
| ev_data (parsedData : list (string * json))
| ev_end
| ev_error (parsedData : list (string * json)).

Definition type_is (parsedData : list (string * json)) (t : string) : bool :=
  match get "type" parsedData with
  | Some (JStr s) => String.eqb s t
  | _ => false
  end.

Definition line (v : json) : string := stringify v ++ str1 newline.

Definition handleEmitterEvents (writer : Writer) (chatId : string) (w : World) : Bridge :=
  let (aiMessageId, w1) := random_id w in
  mkBridge EmptyString aiMessageId chatId writer w1.

Definition on_data (parsedData : list (string * json)) (b : Bridge) : Bridge :=
  if type_is parsedData "response" then
    let writer1 :=
      write (writer b)
        (line (JObj (literal [("type", Some (JStr "message"));
                              ("data", get "data" parsedData);
                              ("messageId", Some (JStr (aiMessageId b)))]))) in
    mkBridge (recievedMessage b ++ ToString_opt (get "data" parsedData))
             (aiMessageId b) (chatId b) writer1 (world b)
  else if type_is parsedData "sources" then
    let writer1 :=
      write (writer b)
        (line (JObj (literal [("type", Some (JStr "sources"));
                              ("data", get "data" parsedData);
                              ("messageId", Some (JStr (aiMessageId b)))]))) in
    let (sourceMessageId, w1) := random_id (world b) in
    let (createdAt, w2) := now w1 in
    let w3 :=
      run_statement
        (insert_message None (chatId b) sourceMessageId source
                        (get "data" parsedData) createdAt) w2 in
    mkBridge (recievedMessage b) (aiMessageId b) (chatId b) writer1 w3
  else b.

Definition on_end (b : Bridge) : Bridge :=
  let writer1 := write (writer b) (line (JObj (literal [("type", Some (JStr "messageEnd"))]))) in
  let writer2 := close writer1 in
  let (createdAt, w1) := now (world b) in
  let w2 :=
    run_statement
      (insert_message (Some (recievedMessage b)) (chatId b) (aiMessageId b) assistant
                      None createdAt) w1 in
  mkBridge (recievedMessage b) (aiMessageId b) (chatId b) writer2 w2.

Definition on_error (parsedData : list (string * json)) (b : Bridge) : Bridge :=
  let writer1 :=
    write (writer b)
      (stringify (JObj (literal [("type", Some (JStr "error"));
                                 ("data", get "data" parsedData)]))) in
  let writer2 := close writer1 in
  mkBridge (recievedMessage b) (aiMessageId b) (chatId b) writer2 (world b).

(** The emitter calls the listener registered for the event's name. *)
Definition emit (e : Event) (b : Bridge) : Bridge :=
  match e with
  | ev_data parsedData => on_data parsedData b
  | ev_end => on_end b
  | ev_error parsedData => on_error parsedData b
  end.

Definition emit_all (es : list Event) (b : Bridge) : Bridge :=
  fold_left (fun acc e => emit e acc) es b.

(** *** History reconciler: [handleHistorySave] *)

Record Turn := mkTurn {
  turn_messageId : string;
  turn_chatId : string;
  turn_content : string
}.

Definition handleHistorySave (message : Turn) (humanMessageId focusMode : string)
    (files : list string) (w : World) : World :=
  let chat := findFirst_chat (turn_chatId message) (store w) in
  let fileData := map getFileDetails files in
  let w1 :=
    match chat with
    | None =>
        let (createdAt, w') := now w in
        run_statement
          (insert_chat (Chat.mk (turn_chatId message) (turn_content message)
                                createdAt focusMode (Some fileData))) w'
    | Some c =>
        if negb (String.eqb (stringify (JArr (nullish (Chat.files c) [])))
                            (stringify (JArr fileData)))
        then
          (* the builder is dropped: no [execute], no [await] *)
          let _ := update_chat_files (Some (map getFileDetails files))
                                     (turn_chatId message) in
          w
        else w
    end in
  let messageExists := findFirst_message humanMessageId (store w1) in
  match messageExists with
  | None =>
      let (createdAt, w') := now w1 in
      run_statement
        (insert_message (Some (turn_content message)) (turn_chatId message)
                        humanMessageId user None createdAt) w'
  | Some found =>
      run_statement (delete_messages (Msg.id found) (turn_chatId message)) w1
  end.

End Process.

(** ** Request validation: the zod schemas *)

Module Zod.

Record Issue := mkIssue {
  path : list string;
  message : string
}.

Definition Parse (A : Type) : Type := (list Issue + A)%type.

Definition issues {A} (p : Parse A) : list Issue :=
  match p with
  | inl l => l
  | inr _ => []
  end.

Definition parsed_type (v : json) : string :=
  match v with
  | JNull => "null"
  | JBool _ => "boolean"
  | JNum _ => "number"
  | JStr _ => "string"
  | JArr _ => "array"
  | JObj _ => "object"
  end.

(** The library's own wording for a value of the wrong type. *)
Definition invalid_type (expected : string) (received : option json) : string :=
  match received with
  | None => "Required"
  | Some v => "Expected " ++ expected ++ ", received " ++ parsed_type v
  end.

Definition index (i : nat) : string := NilZero.string_of_uint (Nat.to_uint i).

(** [z.string()]. *)
Definition string_ (path : list string) (v : option json) : Parse string :=
  match v with
  | Some (JStr s) => inr s
  | other => inl [mkIssue path (invalid_type "string" other)]
  end.

(** [z.string().min(1, msg)]. *)
Definition string_min1 (msg : string) (path : list string) (v : option json)
  : Parse string :=
  match string_ path v with
  | inr s => if Nat.ltb (String.length s) 1 then inl [mkIssue path msg] else inr s
  | inl l => inl l
  end.

(** [z.string().optional()]. *)
Definition string_optional (path : list string) (v : option json)
  : Parse (option string) :=
  match v with
  | None => inr None
  | Some _ =>
      match string_ path v with
      | inr s => inr (Some s)
      | inl l => inl l
      end
  end.

(** [z.array(item)], with the item's index added to its path. *)
Fixpoint array_items {A} (item : list string -> option json -> Parse A)
    (path : list string) (i : nat) (vs : list json) : Parse (list A) :=
  match vs with
  | [] => inr []
  | v :: rest =>
      match item (path ++ [index i])%list (Some v), array_items item path (S i) rest with
      | inr a, inr l => inr (a :: l)
      | p, q => inl (issues p ++ issues q)%list
      end
  end.

Definition array {A} (item : list string -> option json -> Parse A)
    (path : list string) (v : option json) : Parse (list A) :=
  match v with
  | Some (JArr vs) => array_items item path 0 vs
  | other => inl [mkIssue path (invalid_type "array" other)]
  end.

End Zod.

Import Zod.

Definition DEFAULT_SYSTEM_INSTRUCTIONS : string :=
  "You are a trusted Technical Troubleshooting Assistant built to help users fix issues related to gadgets, home appliances, consumer electronics, and hardware devices. Your mission is to give accurate, safe, and actionable guidance — including visual tutorials, clear steps, and trusted references.

- Always prioritize user safety, device integrity, and ethical practices.
- Do not provide guidance or responses that involve unsafe actions, disassembly of high-voltage parts, illegal modifications, or security circumvention (e.g., unlocking, jailbreaking, bypassing safety locks).

If the user’s request violates these guardrails, respond politely with a message like:

“I’m sorry, I can’t assist with that request as it may be unsafe or unethical. Would you like help diagnosing or maintaining your device safely instead?”

Response Structure (Always Follow This Order)
1. Step-by-Step Solution:
- List precise, numbered steps for troubleshooting or fixing the problem.
- Use short sentences.
- If you need special tools, please just mention them.
- Only include steps that are safe for non-professionals. Do not add long answers

2. Safety & Caution:
Mention key precautions.
If a step could be unsafe for general users, instruct them not to proceed and recommend contacting a professional.

Guardrails (Strict Rules):

You must refuse or redirect if the user request involves:
- Bypassing device security, DRM, or software restrictions (unlocking, rooting, etc.)
- Actions that could cause personal injury, fire, electric shock, or data loss

If the issue requires professional advice or hel, please mention the same at the end".

Inductive OptimizationMode := speed | balanced | quality.

Record ModelRef := mkModelRef {
  provider : option string;
  name : option string
}.

Record Body := mkBody {
  message : Turn;
  optimizationMode : OptimizationMode;
  focusMode : string;
  history : list (string * string);
  files : list string;
  chatModel : ModelRef;
  embeddingModel : ModelRef;
  systemInstructions : option string
}.

Definition messageSchema (path : list string) (v : option json) : Parse Turn :=
  match v with
  | Some (JObj o) =>
      let messageId :=
        string_min1 "Message ID is required" (path ++ ["messageId"])%list (get "messageId" o) in
      let chatId :=
        string_min1 "Chat ID is required" (path ++ ["chatId"])%list (get "chatId" o) in
      let content :=
        string_min1 "Message content is required" (path ++ ["content"])%list (get "content" o) in
      match messageId, chatId, content with
      | inr m, inr c, inr t => inr (mkTurn m c t)
      | _, _, _ => inl (issues messageId ++ issues chatId ++ issues content)%list
      end
  | other => inl [mkIssue path (invalid_type "object" other)]
  end.

(** [chatModelSchema] and [embeddingModelSchema] are the same schema. *)
Definition modelSchema (path : list string) (v : option json) : Parse ModelRef :=
  match v with
  | Some (JObj o) =>
      let provider := string_optional (path ++ ["provider"])%list (get "provider" o) in
      let name := string_optional (path ++ ["name"])%list (get "name" o) in
      match provider, name with
      | inr p, inr n => inr (mkModelRef p n)
      | _, _ => inl (issues provider ++ issues name)%list
      end
  | other => inl [mkIssue path (invalid_type "object" other)]
  end.

Definition optimizationModeSchema (path : list string) (v : option json)
  : Parse OptimizationMode :=
  let msg := "Optimization mode must be one of: speed, balanced, quality" in
  match v with
  | Some (JStr s) =>
      if String.eqb s "speed" then inr speed
      else if String.eqb s "balanced" then inr balanced
      else if String.eqb s "quality" then inr quality
      else inl [mkIssue path msg]
  | _ => inl [mkIssue path msg]
  end.

(** [z.tuple([z.string(), z.string()], { errorMap })]: the tuple's own
    issues carry the given message, those of its two items the library's. *)
Definition historyItem (path : list string) (v : option json) : Parse (string * string) :=
  let msg := "History items must be tuples of two strings" in
  match v with
  | Some (JArr (a :: b :: more)) =>
      let first := string_ (path ++ ["0"])%list (Some a) in
      let second := string_ (path ++ ["1"])%list (Some b) in
      match more, first, second with
      | [], inr x, inr y => inr (x, y)
      | [], _, _ => inl (issues first ++ issues second)%list
      | _ :: _, _, _ => inl (mkIssue path msg :: issues first ++ issues second)%list
      end
  | _ => inl [mkIssue path msg]
  end.

(** [.optional().default(d)] around a schema: [undefined] parses as [d]. *)
Definition with_default {A} (schema : list string -> option json -> Parse A) (d : A)
    (path : list string) (v : option json) : Parse A :=
  match v with
  | None => inr d
  | Some _ => schema path v
  end.

(** [z.string().nullable().optional().default(DEFAULT_SYSTEM_INSTRUCTIONS)]:
    only [undefined] takes the default; [None] in the result is [null]. *)
Definition systemInstructionsSchema (path : list string) (v : option json)
  : Parse (option string) :=
  match v with
  | None => inr (Some DEFAULT_SYSTEM_INSTRUCTIONS)
  | Some JNull => inr None
  | Some _ =>
      match string_ path v with
      | inr s => inr (Some s)
      | inl l => inl l
      end
  end.

Definition bodySchema (data : json) : Parse Body :=
  match data with
  | JObj o =>
      let message := messageSchema ["message"] (get "message" o) in
      let optimizationMode :=
        optimizationModeSchema ["optimizationMode"] (get "optimizationMode" o) in
      let focusMode :=
        string_min1 "Focus mode is required" ["focusMode"] (get "focusMode" o) in
      let history := with_default (array historyItem) [] ["history"] (get "history" o) in
      let files := with_default (array string_) [] ["files"] (get "files" o) in
      let chatModel :=
        with_default modelSchema (mkModelRef None None) ["chatModel"] (get "chatModel" o) in
      let embeddingModel :=
        with_default modelSchema (mkModelRef None None) ["embeddingModel"]
                     (get "embeddingModel" o) in
      let systemInstructions :=
        systemInstructionsSchema ["systemInstructions"] (get "systemInstructions" o) in
      match message, optimizationMode, focusMode, history, files, chatModel,
            embeddingModel, systemInstructions with
      | inr m, inr om, inr fm, inr h, inr f, inr cm, inr em, inr si =>
          inr (mkBody m om fm h f cm em si)
      | _, _, _, _, _, _, _, _ =>
          inl (issues message ++ issues optimizationMode ++ issues focusMode
               ++ issues history ++ issues files ++ issues chatModel
               ++ issues embeddingModel ++ issues systemInstructions)%list
      end
  | other => inl [mkIssue [] (invalid_type "object" (Some other))]
  end.

(** [{ success: false, error }] is [inl], [{ success: true, data }] is [inr];
    each issue becomes [{ path: e.path.join('.'), message: e.message }]. *)
Definition safeValidateBody (data : json) : (list json + Body)%type :=
  match bodySchema data with
  | inl errors =>
      inl (map (fun e => JObj [("path", JStr (String.concat "." (path e)));
                               ("message", JStr (Zod.message e))]) errors)
  | inr data => inr data
  end.

(** ** The route: [POST] *)

(** Modelled from the spec: an entry of the model catalog of
    [@/lib/providers]; [model] is the handle, absent when the entry has
    none. *)
Record ModelEntry := mkModelEntry {
  model : option string
}.

Definition Catalog : Type := list (string * list (string * ModelEntry)).

Inductive LLM :=
| catalog_model (handle : string)
| ChatOpenAI (apiKey modelName baseURL : string) (temperature_tenths : nat).

Inductive BaseMessage :=
| HumanMessage (content : string)
| AIMessage (content : string).

(** What the request finds in the process: the two catalogs, the handler
    registry of [@/lib/search] and the configuration of [@/lib/config]. *)
Record Env := mkEnv {
  chatModelProviders : Catalog;
  embeddingModelProviders : Catalog;
  searchHandlers : list (string * string);
  customOpenaiApiKey : string;
  customOpenaiModelName : string;
  customOpenaiApiUrl : string
}.

(** The arguments of [handler.searchAndAnswer]. *)
Record HandlerCall := mkHandlerCall {
  call_handler : string;
  call_query : string;
  call_history : list BaseMessage;
  call_llm : LLM;
  call_embedding : string;
  call_optimizationMode : OptimizationMode;
  call_files : list string;
  call_systemInstructions : option string
}.

(** The two tasks the route starts without awaiting them. *)
Record Launched := mkLaunched {
  bridge_chatId : string;
  save_message : Turn;
  save_humanMessageId : string;
  save_focusMode : string;
  save_files : list string
}.

Inductive Response :=
| Response_json (body : json) (status : nat)
| Response_stream (call : HandlerCall) (tasks : Launched).

(** A computation inside the route's [try]: [None] is a thrown exception. *)
Definition Try (A : Type) : Type := option A.

Definition bind {A B} (c : Try A) (k : A -> Try B) : Try B :=
  match c with
  | Some a => k a
  | None => None
  end.

Notation "x <- c ;; k" := (bind c (fun x => k))
  (at level 61, c at next level, right associativity).

(** [Object.keys(o)[0]]. *)
Definition first_key {A} (o : list (string * A)) : option string :=
  match o with
  | [] => None
  | (k, _) :: _ => Some k
  end.

(** The own property [key] of a plain object.  Keys that name a member
    every object inherits ([constructor], [toString], ...) are outside
    what is modelled here: for them a read finds the inherited member. *)
Fixpoint own {A} (key : string) (o : list (string * A)) : option A :=
  match o with
  | [] => None
  | (k, v) :: rest => if String.eqb k key then Some v else own key rest
  end.

(** [o[key]] on an object: an [undefined] key reads the property named
    by its string form. *)
Definition prop {A} (o : list (string * A)) (key : option string) : option A :=
  own (nullish key "undefined") o.

(** A read through [o] when [o] may be [undefined]: that throws. *)
Definition deref {A B} (o : option A) (read : A -> B) : Try B :=
  match o with
  | Some a => Some (read a)
  | None => None
  end.

Definition toBaseMessage (msg : string * string) : BaseMessage :=
  if String.eqb (fst msg) "human" then HumanMessage (snd msg) else AIMessage (snd msg).

Definition POST_try (env : Env) (req_json : Try json) : Try Response :=
  reqBody <- req_json ;;
  match safeValidateBody reqBody with
  | inl error =>
      Some (Response_json
              (JObj [("message", JStr "Invalid request body"); ("error", JArr error)]) 400)
  | inr body =>
      let message := message body in
      if String.eqb (turn_content message) EmptyString then
        Some (Response_json
                (JObj [("message", JStr "Please provide a message to process")]) 400)
      else
        let chatModelProvider :=
          prop (chatModelProviders env)
               (or_else (provider (chatModel body)) (first_key (chatModelProviders env))) in
        chatModel_ <-
          deref chatModelProvider
                (fun p => prop p (or_else (name (chatModel body)) (first_key p))) ;;
        let embeddingProvider :=
          prop (embeddingModelProviders env)
               (or_else (provider (embeddingModel body))
                        (first_key (embeddingModelProviders env))) in
        embeddingModel_ <-
          deref embeddingProvider
                (fun p => prop p (or_else (name (embeddingModel body)) (first_key p))) ;;
        embedding <- deref embeddingModel_ model ;;
        let llm :=
          if match provider (chatModel body) with
             | Some p => String.eqb p "custom_openai"
             | None => false
             end
          then Some (ChatOpenAI (customOpenaiApiKey env) (customOpenaiModelName env)
                                (customOpenaiApiUrl env) 7)
          else match chatModelProvider, chatModel_ with
               | Some _, Some m =>
                   match model m with
                   | Some handle => Some (catalog_model handle)
                   | None => None
                   end
               | _, _ => None
               end in
        match llm with
        | None => Some (Response_json (JObj [("error", JStr "Invalid chat model")]) 400)
        | Some llm =>
            match embedding with
            | None =>
                Some (Response_json (JObj [("error", JStr "Invalid embedding model")]) 400)
            | Some embedding =>
                let humanMessageId := turn_messageId message in
                let history := map toBaseMessage (history body) in
                match own (focusMode body) (searchHandlers env) with
                | None =>
                    Some (Response_json (JObj [("message", JStr "Invalid focus mode")]) 400)
                | Some handler =>
                    Some (Response_stream
                            (mkHandlerCall handler (turn_content message) history llm
                               embedding (optimizationMode body) (files body)
                               (systemInstructions body))
                            (mkLaunched (turn_chatId message) message humanMessageId
                               (focusMode body) (files body)))
                end
            end
        end
  end.

(** The [catch] of the route turns any exception into the generic 500. *)
Definition POST (env : Env) (req_json : Try json) : Response :=
  match POST_try env req_json with
  | Some response => response
  | None =>
      Response_json
        (JObj [("message", JStr "An error occurred while processing chat request")]) 500
  end.

(** ** Vocabulary of the statements, and sample runs *)

(** Concatenation of fragments in arrival order. *)
Definition concat_all (l : list string) : string := fold_right append EmptyString l.

Fixpoint ends_with (c : ascii) (s : string) : bool :=
  match s with
  | EmptyString => false
  | String a EmptyString => Ascii.eqb a c
  | String _ rest => ends_with c rest
  end.

Fixpoint contains (c : ascii) (s : string) : bool :=
  match s with
  | EmptyString => false
  | String a rest => Ascii.eqb a c || contains c rest
  end.

(** The records the bridge puts on the wire. *)
Definition message_frame (data : option json) (mid : string) : string :=
  line (JObj (literal [("type", Some (JStr "message")); ("data", data);
                       ("messageId", Some (JStr mid))])).

Definition sources_frame (data : option json) (mid : string) : string :=
  line (JObj (literal [("type", Some (JStr "sources")); ("data", data);
                       ("messageId", Some (JStr mid))])).

Definition messageEnd_frame : string :=
  line (JObj (literal [("type", Some (JStr "messageEnd"))])).

Definition error_record (data : option json) : string :=
  stringify (JObj (literal [("type", Some (JStr "error")); ("data", data)])).

(** The text a [response] event adds to [recievedMessage]; other events
    add none. *)
Definition fragments (evs : list (list (string * json))) : list string :=
  flat_map (fun pd => if type_is pd "response" then [ToString_opt (get "data" pd)] else [])
           evs.

(** The records a run of [data] events asks the writer to send. *)
Definition relayed (mid : string) (evs : list (list (string * json))) : list string :=
  flat_map (fun pd =>
              if type_is pd "response" then [message_frame (get "data" pd) mid]
              else if type_is pd "sources" then [sources_frame (get "data" pd) mid]
              else [])
           evs.

Definition is_terminal_record (c : string) : bool :=
  String.prefix (String "{" (quote "type" ++ ":" ++ quote "messageEnd")) c
  || String.prefix (String "{" (quote "type" ++ ":" ++ quote "error")) c.

Definition is_terminal_event (e : Event) : bool :=
  match e with
  | ev_data _ => false
  | ev_end | ev_error _ => true
  end.

Definition terminal_record (e : Event) : string :=
  match e with
  | ev_error pd => error_record (get "data" pd)
  | _ => messageEnd_frame
  end.

(** A sample process, for concrete runs. *)
Definition sample_entropy (n : nat) : Byte.byte :=
  if Nat.even n then Byte.xab else Byte.x0f.

Definition sample_clock (n : nat) : string := "tick " ++ index n.

Definition sample_world : World := mkWorld (mkStore [] [] 1) 0 0.

Definition response_event (text : string) : list (string * json) :=
  [("type", JStr "response"); ("data", JStr text)].

Definition sources_event (citations : list json) : list (string * json) :=
  [("type", JStr "sources"); ("data", JArr citations)].

(** Number texts are what the engine prints for a number: no line break. *)
Fixpoint numbers_on_one_line (v : json) : bool :=
  match v with
  | JNum text => negb (contains newline text)
  | JArr items => forallb numbers_on_one_line items
  | JObj props => forallb (fun kv => numbers_on_one_line (snd kv)) props
  | _ => true
  end.

(** A framed record: the text of one JSON object on one line, then a
    newline. *)
Definition framed (c : string) : Prop :=
  exists props, c = stringify (JObj props) ++ str1 newline
                /\ contains newline (stringify (JObj props)) = false.

Definition payload_on_one_line (data : option json) : bool :=
  match data with
  | Some v => numbers_on_one_line v
  | None => true
  end.

Definition same_chat (cid : string) (c : Chat.t) : bool := String.eqb (Chat.id c) cid.

Definition sample_files (fileId : string) : json :=
  JObj [("name", JStr (fileId ++ ".pdf")); ("fileId", JStr fileId)].

Definition empty_content_response : Response :=
  Response_json (JObj [("message", JStr "Please provide a message to process")]) 400.

Definition generic_failure : Response :=
  Response_json (JObj [("message", JStr "An error occurred while processing chat request")])
                500.

(** Case analysis on the tests of the route, innermost first. *)
Ltac route_cases :=
  repeat match goal with
         | |- context [match ?x with _ => _ end] =>
             lazymatch x with
             | context [match _ with _ => _ end] => fail
             | _ => destruct x eqn:?
             end
         end.

(** A sample deployment and request. *)
Definition sample_env : Env :=
  mkEnv [("openai", [("gpt-4o", mkModelEntry (Some "chat handle"))])]
        [("openai", [("text-embedding-3", mkModelEntry (Some "embedding handle"))])]
        [("webSearch", "web search handler")]
        "key" "custom model" "http://localhost".

Definition sample_message : json :=
  JObj [("messageId", JStr "m1"); ("chatId", JStr "c1"); ("content", JStr "hello")].

Definition sample_request : list (string * json) :=
  [("message", sample_message); ("optimizationMode", JStr "balanced");
   ("focusMode", JStr "webSearch")].

Definition sample_body : Body :=
  mkBody (mkTurn "m1" "c1" "hello") balanced "webSearch" [] [] (mkModelRef None None)
         (mkModelRef None None) (Some DEFAULT_SYSTEM_INSTRUCTIONS).

(** Rows of a messages table shared by two chats. *)
Definition stored_elsewhere : Msg.t :=
  Msg.mk 1 (Some "elsewhere") "c2" "m1" user None "tick 0".

Definition stored_question : Msg.t :=
  Msg.mk 2 (Some "hello") "c1" "m1" user None "tick 1".

Definition stored_answer : Msg.t :=
  Msg.mk 3 (Some "hi there") "c1" "a1" assistant None "tick 2".

Definition two_chats (rows : list Msg.t) : World :=
  mkWorld (mkStore [Chat.mk "c2" "elsewhere" "tick 0" "webSearch" (Some []);
                    Chat.mk "c1" "hello" "tick 1" "webSearch" (Some [])]
                   rows 4) 0 3.

(** Storage as the route keeps it: rows in increasing sequence number, all
    below the number the next insert takes. *)
Definition store_ok (s : Store) : Prop :=
  StronglySorted (fun a b => Msg.id a < Msg.id b) (messages s)
  /\ Forall (fun m => Msg.id m < next_id s) (messages s).

(** A row the bridge may append: in its chat, numbered from the next
    sequence number on, and never a user row. *)
Definition appended_by (b : Bridge) (m : Msg.t) : Prop :=
  Msg.chatId m = chatId b
  /\ next_id (store (world b)) <= Msg.id m
  /\ (Msg.role m = source \/ Msg.role m = assistant).

(** Whether the listener of an event issues an insert. *)
Definition persists (e : Event) : bool :=
  match e with
  | ev_data pd => negb (type_is pd "response") && type_is pd "sources"
  | ev_end => true
  | ev_error _ => false
  end.

(** One turn as the route starts it: the bridge is set up, the reconciler
    is called, and the answer stream's events are delivered afterwards.
    The schedule taken here lets the reconciler finish before the first
    event is delivered. *)
Definition serve_turn (entropy : nat -> Byte.byte) (Date_toString : nat -> string)
    (getFileDetails : string -> json) (tasks : Launched) (es : list Event) (w : World)
  : Bridge :=
  let b0 := handleEmitterEvents entropy fresh_writer (bridge_chatId tasks) w in
  let w1 :=
    handleHistorySave Date_toString getFileDetails (save_message tasks)
      (save_humanMessageId tasks) (save_focusMode tasks) (save_files tasks) (world b0) in
  emit_all entropy Date_toString es
    (mkBridge (recievedMessage b0) (aiMessageId b0) (chatId b0) (writer b0) w1).

(** The tasks the route launches for a turn on the sample request. *)
Definition sample_tasks : Launched :=
  mkLaunched "c1" (mkTurn "m1" "c1" "hello") "m1" "webSearch" [].

(** A parse that fails reports at least one issue. *)
Definition fails_with_issues {A} (p : Parse A) : Prop :=
  match p with
  | inl l => l <> []
  | inr _ => True
  end.

(** The answer to a body the schema rejects. *)
Definition invalid_body_response (error : list json) : Response :=
  Response_json (JObj [("message", JStr "Invalid request body"); ("error", JArr error)]) 400.

(** A history entry and a file reference as the client sends them. *)
Definition history_json (entry : string * string) : json :=
  JArr [JStr (fst entry); JStr (snd entry)].

(** A deployment whose catalog lacks the [custom_openai] provider. *)
Definition custom_request : list (string * json) :=
  (sample_request ++ [("chatModel", JObj [("provider", JStr "custom_openai")])])%list.

Definition custom_env : Env :=
  mkEnv [("custom_openai", [("my model", mkModelEntry None)])]
        (embeddingModelProviders sample_env) (searchHandlers sample_env)
        "key" "custom model" "http://localhost".

(** What the route keeps true of storage: a user Message is the first row,
    in table order, that carries its [messageId]. *)
Definition user_rows_first (s : Store) : Prop :=
  forall u, In u (messages s) -> Msg.role u = user ->
            findFirst_message (Msg.messageId u) s = Some u.




(** * Properties *)

(** ** Text and writer basics *)

Lemma append_nil_r (s : string) : s ++ EmptyString = s.
Proof. induction s as [|a s IH]; simpl; [reflexivity | now rewrite IH]. Qed.

Lemma append_assoc (s t u : string) : (s ++ t) ++ u = s ++ (t ++ u).
Proof. induction s as [|a s IH]; simpl; [reflexivity | now rewrite IH]. Qed.

Lemma length_append (s t : string) :
  String.length (s ++ t) = String.length s + String.length t.
Proof. induction s as [|a s IH]; simpl; [reflexivity | now rewrite IH]. Qed.

Lemma contains_append (c : ascii) (s t : string) :
  contains c (s ++ t) = contains c s || contains c t.
Proof.
  induction s as [|a s IH]; simpl; [reflexivity|].
  rewrite IH. now rewrite orb_assoc.
Qed.

Lemma ends_with_append_char (c a : ascii) (s : string) :
  ends_with c (s ++ str1 a) = Ascii.eqb a c.
Proof.
  induction s as [|x s IH]; simpl; [reflexivity|].
  rewrite <- IH. destruct s; reflexivity.
Qed.

Lemma all_chars_append (p : ascii -> bool) (s t : string) :
  all_chars p (s ++ t) = all_chars p s && all_chars p t.
Proof.
  induction s as [|a s IH]; simpl; [reflexivity|].
  rewrite IH. now rewrite andb_assoc.
Qed.

Lemma closed_write (w : Writer) (c : string) : closed (write w c) = closed w.
Proof. unfold write. destruct (closed w) eqn:E; simpl; reflexivity. Qed.

Lemma chunks_write_open (w : Writer) (c : string) :
  closed w = false -> chunks (write w c) = (chunks w ++ [c])%list.
Proof. intros E. unfold write. now rewrite E. Qed.

Lemma chunks_write_closed (w : Writer) (c : string) :
  closed w = true -> chunks (write w c) = chunks w.
Proof. intros E. unfold write. now rewrite E. Qed.

Lemma closed_close (w : Writer) : closed (close w) = true.
Proof. unfold close. destruct (closed w); reflexivity. Qed.

Lemma chunks_close (w : Writer) : chunks (close w) = chunks w.
Proof. unfold close. destruct (closed w); reflexivity. Qed.

(** ** Identifiers *)

Lemma hex_digit_is_hex (n : N) : (n < 16)%N -> is_hex_char (hex_digit n) = true.
Proof.
  intros H.
  assert (K : (N.to_nat n < 16)%nat) by lia.
  unfold hex_digit. remember (N.to_nat n) as m eqn:E. clear E H.
  do 16 (destruct m as [|m]; [reflexivity|]).
  lia.
Qed.

Lemma hex_byte_shape (b : Byte.byte) :
  String.length (hex_byte b) = 2 /\ all_chars is_hex_char (hex_byte b) = true.
Proof.
  split; [reflexivity|].
  pose proof (Byte.to_N_bounded b) as B.
  unfold hex_byte. cbn [all_chars str1].
  rewrite !hex_digit_is_hex; [reflexivity| |].
  - apply N.mod_lt. discriminate.
  - apply N.Div0.div_lt_upper_bound. lia.
Qed.

Lemma hex_shape (buf : list Byte.byte) :
  String.length (hex buf) = 2 * List.length buf
  /\ all_chars is_hex_char (hex buf) = true.
Proof.
  induction buf as [|b buf [IHl IHc]]; [split; reflexivity|].
  destruct (hex_byte_shape b) as [Hl Hc].
  cbn [hex List.length]. rewrite length_append, all_chars_append, Hl, Hc, IHl, IHc.
  split; [lia | reflexivity].
Qed.

Lemma randomBytes_length (entropy : nat -> Byte.byte) (drawn n : nat) :
  List.length (randomBytes entropy drawn n) = n.
Proof. unfold randomBytes. now rewrite length_map, length_seq. Qed.

(** ** Stream bridge *)

Section BridgeFacts.

Variable entropy : nat -> Byte.byte.
Variable Date_toString : nat -> string.

Lemma emit_all_app (es1 es2 : list Event) (b : Bridge) :
  emit_all entropy Date_toString (es1 ++ es2) b =
  emit_all entropy Date_toString es2 (emit_all entropy Date_toString es1 b).
Proof. unfold emit_all. apply fold_left_app. Qed.

Lemma emit_all_cons (e : Event) (es : list Event) (b : Bridge) :
  emit_all entropy Date_toString (e :: es) b =
  emit_all entropy Date_toString es (emit entropy Date_toString e b).
Proof. reflexivity. Qed.

Ltac on_data_cases pd :=
  unfold on_data;
  destruct (type_is pd "response");
  [| destruct (type_is pd "sources")];
  cbn [random_id now run_statement recievedMessage aiMessageId chatId writer world].

Lemma on_data_constants (pd : list (string * json)) (b : Bridge) :
  aiMessageId (on_data entropy Date_toString pd b) = aiMessageId b
  /\ chatId (on_data entropy Date_toString pd b) = chatId b
  /\ closed (writer (on_data entropy Date_toString pd b)) = closed (writer b).
Proof. on_data_cases pd; rewrite ?closed_write; auto. Qed.

Lemma emit_constants (e : Event) (b : Bridge) :
  aiMessageId (emit entropy Date_toString e b) = aiMessageId b
  /\ chatId (emit entropy Date_toString e b) = chatId b.
Proof.
  destruct e as [pd| |pd]; cbn [emit].
  - destruct (on_data_constants pd b) as (H1 & H2 & _). auto.
  - unfold on_end. cbn. auto.
  - unfold on_error. cbn. auto.
Qed.

Lemma emit_all_constants (es : list Event) (b : Bridge) :
  aiMessageId (emit_all entropy Date_toString es b) = aiMessageId b
  /\ chatId (emit_all entropy Date_toString es b) = chatId b.
Proof.
  revert b. induction es as [|e es IH]; intros b; [split; reflexivity|].
  rewrite emit_all_cons.
  destruct (IH (emit entropy Date_toString e b)) as [H1 H2].
  destruct (emit_constants e b) as [K1 K2].
  split; congruence.
Qed.

(** A run of [data] events on an open writer: the writer stays open, the
    records are appended in arrival order, the text accumulates. *)
Lemma data_run (evs : list (list (string * json))) (b : Bridge) :
  closed (writer b) = false ->
  let b' := emit_all entropy Date_toString (map ev_data evs) b in
  closed (writer b') = false
  /\ chunks (writer b') = (chunks (writer b) ++ relayed (aiMessageId b) evs)%list
  /\ recievedMessage b' = recievedMessage b ++ concat_all (fragments evs).
Proof.
  revert b. induction evs as [|pd evs IH]; intros b Hopen; cbn zeta.
  - cbn. rewrite app_nil_r, append_nil_r. auto.
  - cbn [map]. rewrite emit_all_cons. cbn [emit].
    destruct (on_data_constants pd b) as (Hid & _ & Hcl).
    destruct (IH (on_data entropy Date_toString pd b)) as (H1 & H2 & H3);
      [congruence|].
    rewrite Hid in H2. rewrite H1, H2, H3. clear H1 H2 H3 IH.
    split; [reflexivity|].
    unfold relayed, fragments. cbn [flat_map].
    unfold on_data.
    destruct (type_is pd "response").
    + cbn [writer recievedMessage]. rewrite chunks_write_open by assumption.
      cbn [concat_all fold_right app]. rewrite <- app_assoc, append_assoc. auto.
    + destruct (type_is pd "sources").
      * cbn [random_id now run_statement writer recievedMessage].
        rewrite chunks_write_open by assumption.
        rewrite <- app_assoc. auto.
      * auto.
Qed.

(** Once the writer is closed, no event adds a record or reopens it. *)
Lemma emit_closed (e : Event) (b : Bridge) :
  closed (writer b) = true ->
  closed (writer (emit entropy Date_toString e b)) = true
  /\ chunks (writer (emit entropy Date_toString e b)) = chunks (writer b).
Proof.
  intros Hc. destruct e as [pd| |pd]; cbn [emit].
  - on_data_cases pd; rewrite ?closed_write, ?chunks_write_closed; auto.
  - unfold on_end. cbn [now run_statement writer].
    rewrite closed_close, chunks_close, chunks_write_closed; auto.
  - unfold on_error. cbn [writer].
    rewrite closed_close, chunks_close, chunks_write_closed; auto.
Qed.

Lemma emit_all_closed (es : list Event) (b : Bridge) :
  closed (writer b) = true ->
  closed (writer (emit_all entropy Date_toString es b)) = true
  /\ chunks (writer (emit_all entropy Date_toString es b)) = chunks (writer b).
Proof.
  revert b. induction es as [|e es IH]; intros b Hc; [auto|].
  rewrite emit_all_cons.
  destruct (emit_closed e b Hc) as [H1 H2].
  destruct (IH _ H1) as [K1 K2]. split; congruence.
Qed.

(** A terminal event on an open writer writes its record and closes. *)
Lemma terminal_step (e : Event) (b : Bridge) :
  is_terminal_event e = true ->
  closed (writer b) = false ->
  closed (writer (emit entropy Date_toString e b)) = true
  /\ chunks (writer (emit entropy Date_toString e b)) =
     (chunks (writer b) ++ [terminal_record e])%list.
Proof.
  intros Ht Ho. destruct e as [pd| |pd]; [discriminate| |]; cbn [emit].
  - unfold on_end. cbn [now run_statement writer].
    rewrite closed_close, chunks_close, chunks_write_open; auto.
  - unfold on_error. cbn [writer].
    rewrite closed_close, chunks_close, chunks_write_open; auto.
Qed.

Lemma relayed_not_terminal (mid : string) (evs : list (list (string * json))) :
  filter is_terminal_record (relayed mid evs) = [].
Proof.
  induction evs as [|pd evs IH]; [reflexivity|].
  unfold relayed. cbn [flat_map]. fold (relayed mid evs).
  rewrite filter_app, IH, app_nil_r.
  destruct (type_is pd "response").
  - destruct (get "data" pd); reflexivity.
  - destruct (type_is pd "sources"); [|reflexivity].
    destruct (get "data" pd); reflexivity.
Qed.

Lemma terminal_record_is_terminal (e : Event) :
  is_terminal_record (terminal_record e) = true.
Proof.
  destruct e as [pd| |pd]; try reflexivity.
  cbn [terminal_record]. unfold error_record. destruct (get "data" pd); reflexivity.
Qed.

End BridgeFacts.

Lemma fragments_of_text (texts : list string) :
  fragments (map response_event texts) = texts.
Proof.
  induction texts as [|t ts IH]; [reflexivity|].
  cbn [map]. unfold fragments. cbn [flat_map].
  fold (fragments (map response_event ts)). rewrite IH. reflexivity.
Qed.

Lemma on_end_persists (Date_toString : nat -> string) (b : Bridge) :
  messages (store (world (on_end Date_toString b))) =
  (messages (store (world b)) ++
   [Msg.mk (next_id (store (world b))) (Some (recievedMessage b)) (chatId b)
           (aiMessageId b) assistant None (Date_toString (ticks (world b)))])%list.
Proof. reflexivity. Qed.

(** [end] after a run of [data] events on a fresh bridge: the assistant
    Message is appended, with the accumulated text and the bridge's id. *)
Lemma end_after_data (entropy : nat -> Byte.byte) (Date_toString : nat -> string)
    (cid : string) (w : World) (evs : list (list (string * json))) :
  let b0 := handleEmitterEvents entropy fresh_writer cid w in
  let b1 := emit_all entropy Date_toString (map ev_data evs) b0 in
  let b2 := emit_all entropy Date_toString (map ev_data evs ++ [ev_end]) b0 in
  messages (store (world b2)) =
    (messages (store (world b1)) ++
     [Msg.mk (next_id (store (world b1))) (Some (concat_all (fragments evs))) cid
             (aiMessageId b0) assistant None (Date_toString (ticks (world b1)))])%list.
Proof.
  intros b0 b1 b2.
  assert (Hopen : closed (writer b0) = false) by reflexivity.
  unfold b2. rewrite emit_all_app. fold b1. cbn [emit_all fold_left emit].
  rewrite on_end_persists.
  destruct (data_run entropy Date_toString evs b0 Hopen) as (_ & _ & Hrec).
  destruct (emit_all_constants entropy Date_toString (map ev_data evs) b0) as [Hid Hcid].
  fold b1 in Hrec, Hid, Hcid. rewrite Hrec, Hid, Hcid. reflexivity.
Qed.

(** C1.  For a turn whose answer stream emits [data] events and then
    [end], the assistant Message persisted on [end] has as content the
    concatenation, in arrival order, of the payloads of the [response]
    events, and every [response] event appends its [message] record to the
    client connection in the step that handles it. *)
Theorem C1_assistant_content_is_concatenation
    (entropy : nat -> Byte.byte) (Date_toString : nat -> string)
    (cid : string) (w : World) (evs : list (list (string * json))) :
  let b0 := handleEmitterEvents entropy fresh_writer cid w in
  let b1 := emit_all entropy Date_toString (map ev_data evs) b0 in
  let b2 := emit_all entropy Date_toString (map ev_data evs ++ [ev_end]) b0 in
  messages (store (world b2)) =
    (messages (store (world b1)) ++
     [Msg.mk (next_id (store (world b1))) (Some (concat_all (fragments evs))) cid
             (aiMessageId b0) assistant None (Date_toString (ticks (world b1)))])%list
  /\ forall (pre : list (list (string * json))) (pd : list (string * json)),
       type_is pd "response" = true ->
       chunks (writer (emit_all entropy Date_toString (map ev_data (pre ++ [pd])) b0)) =
       (chunks (writer (emit_all entropy Date_toString (map ev_data pre) b0)) ++
        [message_frame (get "data" pd) (aiMessageId b0)])%list.
Proof.
  intros b0 b1 b2.
  assert (Hopen : closed (writer b0) = false) by reflexivity.
  split.
  - apply end_after_data.
  - intros pre pd Hresp.
    destruct (data_run entropy Date_toString (pre ++ [pd]) b0 Hopen) as (_ & H1 & _).
    destruct (data_run entropy Date_toString pre b0 Hopen) as (_ & H2 & _).
    rewrite H1, H2. unfold relayed. rewrite flat_map_app. cbn [flat_map].
    rewrite Hresp, app_nil_r, app_assoc. reflexivity.
Qed.

Lemma C1_witness :
  let b0 := handleEmitterEvents sample_entropy fresh_writer "c1" sample_world in
  map Msg.content
      (messages (store (world
         (emit_all sample_entropy sample_clock
            (map ev_data [response_event "Hel"; sources_event []; response_event "lo"]
             ++ [ev_end]) b0)))) = [None; Some "Hello"]
  /\ chunks (writer (emit_all sample_entropy sample_clock
                       (map ev_data ([] ++ [response_event "Hel"])) b0)) =
     [message_frame (Some (JStr "Hel")) "ab0fab0fab0fab"].
Proof.
  destruct (C1_assistant_content_is_concatenation sample_entropy sample_clock "c1"
              sample_world [response_event "Hel"; sources_event []; response_event "lo"])
    as [Hstore Hrelay].
  split.
  - cbv zeta in Hstore. rewrite Hstore. reflexivity.
  - exact (Hrelay [] (response_event "Hel") eq_refl).
Defined.

(** C9.  The identifier drawn when the bridge starts is the hexadecimal
    form of seven fresh random bytes, fourteen hexadecimal characters; every
    [message] and [sources] record written carries it, and the assistant
    Message persisted on [end] has it as [messageId]. *)
Theorem C9_one_fresh_id_on_records_and_assistant_message
    (entropy : nat -> Byte.byte) (Date_toString : nat -> string)
    (cid : string) (w : World) (evs : list (list (string * json))) :
  let b0 := handleEmitterEvents entropy fresh_writer cid w in
  let b1 := emit_all entropy Date_toString (map ev_data evs) b0 in
  let b2 := emit_all entropy Date_toString (map ev_data evs ++ [ev_end]) b0 in
  let mid := aiMessageId b0 in
  mid = hex (randomBytes entropy (drawn w) 7)
  /\ drawn (world b0) = drawn w + 7
  /\ String.length mid = 14
  /\ all_chars is_hex_char mid = true
  /\ Forall (fun c => exists data, c = message_frame data mid \/ c = sources_frame data mid)
            (chunks (writer b1))
  /\ exists m, messages (store (world b2)) = (messages (store (world b1)) ++ [m])%list
               /\ Msg.role m = assistant /\ Msg.messageId m = mid.
Proof.
  intros b0 b1 b2 mid.
  assert (Hopen : closed (writer b0) = false) by reflexivity.
  destruct (hex_shape (randomBytes entropy (drawn w) 7)) as [Hlen Hhex].
  rewrite randomBytes_length in Hlen.
  repeat split; try assumption; try reflexivity.
  - destruct (data_run entropy Date_toString evs b0 Hopen) as (_ & Hch & _).
    fold b1 in Hch. rewrite Hch. cbn [chunks writer b0 handleEmitterEvents random_id
                                      fresh_writer app].
    fold mid. clear. induction evs as [|pd evs IH]; [constructor|].
    unfold relayed. cbn [flat_map]. fold (relayed mid evs).
    destruct (type_is pd "response").
    + constructor; [eexists; left; reflexivity | exact IH].
    + destruct (type_is pd "sources").
      * constructor; [eexists; right; reflexivity | exact IH].
      * exact IH.
  - eexists. split; [apply end_after_data | split; reflexivity].
Qed.

(** C3, as the code has it.  When the answer stream emits [data] events
    and then its first [end] or [error], exactly one terminal record
    ([messageEnd] or [error]) is written, it is the last record, and the
    connection is closed in the same step; whatever the stream emits later
    adds no record, the writer being closed.  The bridge keeps no
    terminated flag: the listeners still run on late events. *)
Theorem C3_one_terminal_record_then_silence
    (entropy : nat -> Byte.byte) (Date_toString : nat -> string)
    (cid : string) (w : World) (evs : list (list (string * json)))
    (term : Event) (late : list Event) :
  is_terminal_event term = true ->
  let b0 := handleEmitterEvents entropy fresh_writer cid w in
  let b1 := emit_all entropy Date_toString (map ev_data evs) b0 in
  let bT := emit entropy Date_toString term b1 in
  closed (writer b1) = false
  /\ chunks (writer bT) = (chunks (writer b1) ++ [terminal_record term])%list
  /\ filter is_terminal_record (chunks (writer bT)) = [terminal_record term]
  /\ closed (writer bT) = true
  /\ chunks (writer (emit_all entropy Date_toString late bT)) = chunks (writer bT)
  /\ closed (writer (emit_all entropy Date_toString late bT)) = true.
Proof.
  intros Hterm b0 b1 bT.
  assert (Hopen : closed (writer b0) = false) by reflexivity.
  destruct (data_run entropy Date_toString evs b0 Hopen) as (Ho & Hch & _).
  fold b1 in Ho, Hch.
  destruct (terminal_step entropy Date_toString term b1 Hterm Ho) as [Hc Hk].
  fold bT in Hc, Hk.
  destruct (emit_all_closed entropy Date_toString late bT Hc) as [Lc Lk].
  repeat split; try assumption.
  rewrite Hk, Hch. cbn [chunks writer b0 handleEmitterEvents random_id fresh_writer app].
  rewrite filter_app, relayed_not_terminal. cbn [filter app].
  now rewrite terminal_record_is_terminal.
Qed.

Lemma C3_witness :
  let b0 := handleEmitterEvents sample_entropy fresh_writer "c1" sample_world in
  let bT := emit_all sample_entropy sample_clock
              [ev_data (response_event "Hi"); ev_error [("data", JStr "boom")]] b0 in
  is_terminal_event (ev_error [("data", JStr "boom")]) = true
  /\ filter is_terminal_record (chunks (writer bT)) = [error_record (Some (JStr "boom"))]
  /\ chunks (writer (emit_all sample_entropy sample_clock
                       [ev_data (response_event "late"); ev_end] bT)) =
     chunks (writer bT).
Proof.
  destruct (C3_one_terminal_record_then_silence sample_entropy sample_clock "c1"
              sample_world [response_event "Hi"] (ev_error [("data", JStr "boom")])
              [ev_data (response_event "late"); ev_end] eq_refl)
    as (_ & _ & H1 & _ & H2 & _).
  split; [reflexivity | split; [exact H1 | exact H2]].
Defined.

(** C3 as stated fails: an [end] arriving after the stream has ended is
    not ignored.  The listener runs again, two writer calls are rejected
    and a second assistant Message is persisted. *)
Lemma C3_late_event_is_not_ignored :
  let b0 := handleEmitterEvents sample_entropy fresh_writer "c1" sample_world in
  let bT := emit_all sample_entropy sample_clock [ev_data (response_event "Hi"); ev_end] b0 in
  let bL := emit sample_entropy sample_clock ev_end bT in
  bL <> bT
  /\ map Msg.role (messages (store (world bT))) = [assistant]
  /\ map Msg.role (messages (store (world bL))) = [assistant; assistant]
  /\ rejected (writer bT) = 0
  /\ rejected (writer bL) = 2.
Proof.
  cbv zeta. split; [|repeat split; reflexivity].
  intros H. apply (f_equal (fun b => rejected (writer b))) in H.
  vm_compute in H. discriminate.
Qed.

(** ** Framing of the records *)

Lemma line_ends_with_newline (v : json) : ends_with newline (line v) = true.
Proof. unfold line. apply ends_with_append_char. Qed.

Lemma stringify_object_ends_with_brace (props : list (string * json)) (c : ascii) :
  ends_with c (stringify (JObj props)) = Ascii.eqb "}"%char c.
Proof.
  cbn [stringify].
  set (body := String.concat "," _).
  exact (ends_with_append_char c "}"%char (String "{" body)).
Qed.

(** The [message], [sources] and [messageEnd] records end in a newline;
    the [error] record does not, whatever its payload. *)
Lemma bridge_records_framing (data : option json) (mid : string) :
  ends_with newline (message_frame data mid) = true
  /\ ends_with newline (sources_frame data mid) = true
  /\ ends_with newline messageEnd_frame = true
  /\ ends_with newline (error_record data) = false.
Proof.
  repeat split; try apply line_ends_with_newline.
  unfold error_record. now rewrite stringify_object_ends_with_brace.
Qed.

(** C4 fails on the [error] path.  An [error] event with payload
    [{"data":"boom"}] makes the bridge write the bare JSON text of the
    error object: the record is not terminated by a newline, unlike the
    three records of the other listeners. *)
Theorem C4_error_record_is_not_newline_terminated :
  let b0 := handleEmitterEvents sample_entropy fresh_writer "c1" sample_world in
  let b1 := emit sample_entropy sample_clock (ev_error [("data", JStr "boom")]) b0 in
  chunks (writer b1) =
    [String "{" (quote "type" ++ ":" ++ quote "error" ++ ","
                 ++ quote "data" ++ ":" ++ quote "boom" ++ "}")]
  /\ forallb (ends_with newline) (chunks (writer b1)) = false
  /\ closed (writer b1) = true.
Proof. repeat split; reflexivity. Qed.

Lemma quote_char_one_line (c : ascii) : contains newline (quote_char c) = false.
Proof. destruct c as [[] [] [] [] [] [] [] []]; reflexivity. Qed.

Lemma quote_one_line (s : string) : contains newline (quote s) = false.
Proof.
  unfold quote. cbn [contains]. rewrite contains_append.
  replace (contains newline (quote_body s)) with false; [reflexivity|].
  induction s as [|a s IH]; [reflexivity|].
  cbn [quote_body]. now rewrite contains_append, quote_char_one_line, <- IH.
Qed.

Lemma concat_one_line (sep : string) (l : list string) :
  contains newline sep = false ->
  Forall (fun s => contains newline s = false) l ->
  contains newline (String.concat sep l) = false.
Proof.
  intros Hsep H. induction H as [|s l Hs Hl IH]; [reflexivity|].
  cbn [String.concat]. destruct l as [|t l]; [exact Hs|].
  now rewrite !contains_append, Hs, Hsep, IH.
Qed.

(** [JSON.stringify] escapes every line break: its output is one line. *)
Lemma stringify_one_line (v : json) :
  numbers_on_one_line v = true -> contains newline (stringify v) = false.
Proof.
  induction v as [| b | text | s | items IH | props IH] using json_induction;
    cbn [stringify numbers_on_one_line]; intros Hwf.
  - reflexivity.
  - destruct b; reflexivity.
  - now apply negb_true_iff in Hwf.
  - apply quote_one_line.
  - rewrite !contains_append. rewrite concat_one_line; [reflexivity..|].
    rewrite forallb_forall in Hwf. rewrite Forall_forall in IH |- *.
    intros s Hs. apply in_map_iff in Hs as (x & <- & Hx). auto.
  - rewrite !contains_append. rewrite concat_one_line; [reflexivity..|].
    rewrite forallb_forall in Hwf. rewrite Forall_forall in IH |- *.
    intros s Hs. apply in_map_iff in Hs as (kv & <- & Hkv).
    rewrite !contains_append, quote_one_line, (IH kv Hkv (Hwf kv Hkv)). reflexivity.
Qed.

Lemma data_records_framed (data : option json) (mid : string) :
  payload_on_one_line data = true ->
  framed (message_frame data mid) /\ framed (sources_frame data mid)
  /\ framed messageEnd_frame.
Proof.
  intros Hwf. unfold framed, message_frame, sources_frame, messageEnd_frame, line.
  repeat split; eexists; (split; [reflexivity|]); apply stringify_one_line;
    destruct data as [v|]; cbn in *; rewrite ?Hwf; reflexivity.
Qed.

Lemma error_record_not_framed (data : option json) : ~ framed (error_record data).
Proof.
  intros (props & H & _).
  apply (f_equal (ends_with newline)) in H.
  unfold error_record in H.
  rewrite stringify_object_ends_with_brace, ends_with_append_char in H.
  discriminate.
Qed.

(** ** History reconciler *)

Section ReconcilerFacts.

Variable Date_toString : nat -> string.
Variable getFileDetails : string -> json.

(** The reconciler's second half, on messages, leaves the chats alone. *)
Lemma reconcile_chats (message : Turn) (hm fm : string) (files : list string) (w : World) :
  chats (store (handleHistorySave Date_toString getFileDetails message hm fm files w)) =
  match findFirst_chat (turn_chatId message) (store w) with
  | None =>
      (chats (store w) ++
       [Chat.mk (turn_chatId message) (turn_content message) (Date_toString (ticks w)) fm
                (Some (map getFileDetails files))])%list
  | Some _ => chats (store w)
  end.
Proof.
  unfold handleHistorySave.
  destruct (findFirst_chat (turn_chatId message) (store w)) as [c|].
  - destruct (negb _);
      destruct (findFirst_message hm (store w)); reflexivity.
  - cbn [now run_statement store execute].
    match goal with |- context [findFirst_message hm ?s] =>
      destruct (findFirst_message hm s) end; reflexivity.
Qed.

Lemma find_none_filter {A} (p : A -> bool) (l : list A) :
  find p l = None -> filter p l = [].
Proof.
  induction l as [|x l IH]; [reflexivity|].
  cbn. destruct (p x); [discriminate | exact IH].
Qed.

Lemma findFirst_chat_after_insert (c : Chat.t) (s : Store) :
  findFirst_chat (Chat.id c) s = None ->
  find (same_chat (Chat.id c)) (chats s ++ [c]) = Some c.
Proof.
  unfold findFirst_chat. fold (same_chat (Chat.id c)).
  induction (chats s) as [|x l IH]; cbn.
  - unfold same_chat. now rewrite String.eqb_refl.
  - destruct (same_chat (Chat.id c) x); [discriminate | exact IH].
Qed.

(** The reconciler's first half, on the chat, leaves the messages alone:
    the lookup of the turn's message sees the table as it was. *)
Lemma reconcile_messages (message : Turn) (hm fm : string) (files : list string)
    (w : World) :
  let w1 := handleHistorySave Date_toString getFileDetails message hm fm files w in
  match findFirst_message hm (store w) with
  | Some found =>
      messages (store w1) =
        filter (fun m => negb (Nat.ltb (Msg.id found) (Msg.id m)
                               && String.eqb (Msg.chatId m) (turn_chatId message)))
               (messages (store w))
      /\ next_id (store w1) = next_id (store w)
  | None =>
      exists createdAt,
        messages (store w1) =
          (messages (store w) ++
           [Msg.mk (next_id (store w)) (Some (turn_content message)) (turn_chatId message)
                   hm user None createdAt])%list
        /\ next_id (store w1) = S (next_id (store w))
  end.
Proof.
  unfold handleHistorySave, findFirst_message. cbv zeta.
  destruct (findFirst_chat (turn_chatId message) (store w)) as [c|]; cbv beta iota.
  - destruct (negb _);
      (destruct (find _ (messages (store w))) as [found|];
       [split; reflexivity | eexists; split; reflexivity]).
  - cbn [now run_statement store execute messages next_id].
    destruct (find _ (messages (store w))) as [found|];
      [split; reflexivity | eexists; split; reflexivity].
Qed.

End ReconcilerFacts.

(** C8.  A first turn on a chat id storage does not know inserts exactly
    one Chat, whose title is the turn's content, with the turn's focus mode
    and the descriptors of its files; any later turn with that chat id
    leaves the chats as they are. *)
Theorem C8_first_turn_inserts_one_chat
    (Date_toString : nat -> string) (getFileDetails : string -> json)
    (message : Turn) (hm fm : string) (files : list string) (w : World) :
  findFirst_chat (turn_chatId message) (store w) = None ->
  let w1 := handleHistorySave Date_toString getFileDetails message hm fm files w in
  let created :=
    Chat.mk (turn_chatId message) (turn_content message) (Date_toString (ticks w)) fm
            (Some (map getFileDetails files)) in
  chats (store w1) = (chats (store w) ++ [created])%list
  /\ filter (same_chat (turn_chatId message)) (chats (store w1)) = [created]
  /\ forall (message2 : Turn) (hm2 fm2 : string) (files2 : list string),
       turn_chatId message2 = turn_chatId message ->
       chats (store (handleHistorySave Date_toString getFileDetails
                       message2 hm2 fm2 files2 w1)) = chats (store w1).
Proof.
  intros Habsent w1 created.
  assert (H1 : chats (store w1) = (chats (store w) ++ [created])%list).
  { unfold w1. rewrite reconcile_chats, Habsent. reflexivity. }
  split; [exact H1|]. split.
  - rewrite H1, filter_app.
    unfold findFirst_chat in Habsent.
    rewrite (find_none_filter (same_chat (turn_chatId message)) _ Habsent). cbn.
    unfold same_chat. cbn [Chat.id created]. now rewrite String.eqb_refl.
  - intros message2 hm2 fm2 files2 Hsame.
    rewrite reconcile_chats, Hsame.
    unfold findFirst_chat at 1. rewrite H1.
    pose proof (findFirst_chat_after_insert created (store w) Habsent) as F.
    unfold same_chat in F. cbn [Chat.id created] in F. rewrite F. reflexivity.
Qed.

Lemma C8_witness :
  let first := mkTurn "m1" "c1" "hello" in
  let second := mkTurn "m2" "c1" "and then?" in
  let w1 := handleHistorySave sample_clock sample_files first "m1" "webSearch" ["f1"]
              sample_world in
  map Chat.title (chats (store w1)) = ["hello"]
  /\ chats (store (handleHistorySave sample_clock sample_files second "m2" "webSearch" []
                     w1)) = chats (store w1).
Proof.
  destruct (C8_first_turn_inserts_one_chat sample_clock sample_files
              (mkTurn "m1" "c1" "hello") "m1" "webSearch" ["f1"] sample_world eq_refl)
    as (H1 & _ & H2).
  split.
  - cbv zeta in H1. cbv zeta. rewrite H1. reflexivity.
  - exact (H2 (mkTurn "m2" "c1" "and then?") "m2" "webSearch" [] eq_refl).
Defined.

(** On a chat storage already knows, the reconciler changes no Chat at
    all, whatever the turn's files. *)
Lemma existing_chat_is_never_modified
    (Date_toString : nat -> string) (getFileDetails : string -> json)
    (message : Turn) (hm fm : string) (files : list string) (w : World) (c : Chat.t) :
  findFirst_chat (turn_chatId message) (store w) = Some c ->
  chats (store (handleHistorySave Date_toString getFileDetails message hm fm files w)) =
  chats (store w).
Proof. intros H. now rewrite reconcile_chats, H. Qed.

(** C6 fails on the code.  Chat [c1] is stored with no files and the turn
    brings file [f1]: the two serialized file sets differ, the update
    statement is built, and it is never executed, so [Chat.files] keeps its
    old value.  Executing the statement would have stored the new set. *)
Theorem C6_files_update_is_never_executed :
  let stored := Chat.mk "c1" "hello" "tick 0" "webSearch" (Some []) in
  let w := mkWorld (mkStore [stored] [] 1) 0 1 in
  let w1 := handleHistorySave sample_clock sample_files (mkTurn "m2" "c1" "more")
              "m2" "webSearch" ["f1"] w in
  String.eqb (stringify (JArr (nullish (Chat.files stored) [])))
             (stringify (JArr (map sample_files ["f1"]))) = false
  /\ chats (store w1) = [stored]
  /\ map Chat.files
         (chats (store (run_statement
                          (update_chat_files (Some (map sample_files ["f1"])) "c1") w))) =
     [Some [sample_files "f1"]].
Proof. repeat split; reflexivity. Qed.


(** The lookup itself does not look at the chat.  On a table where an
    earlier row of another chat carries the same [messageId] as a user
    Message, a table the route itself never builds since it inserts a user
    Message only under a [messageId] that no row has, the lookup returns
    the other chat's row and the deletion removes the turn's own user
    Message. *)
Lemma foreign_duplicate_misleads_the_lookup :
  let w := two_chats [stored_elsewhere; stored_question; stored_answer] in
  let w1 := handleHistorySave sample_clock sample_files (mkTurn "m1" "c1" "hello again")
              "m1" "webSearch" [] w in
  find (fun m => String.eqb (Msg.messageId m) "m1" && String.eqb (Msg.chatId m) "c1")
       (messages (store w)) = Some stored_question
  /\ findFirst_message "m1" (store w) = Some stored_elsewhere
  /\ messages (store w1) = [stored_elsewhere]
  /\ ~ In stored_question (messages (store w1)).
Proof.
  cbv zeta. repeat split; try reflexivity.
  intros [H|[]]. discriminate H.
Qed.

(** ** Request validation and the route *)

Lemma string_min1_nonempty (msg : string) (path : list string) (v : option json)
    (s : string) :
  string_min1 msg path v = inr s -> String.eqb s EmptyString = false.
Proof.
  unfold string_min1. destruct (string_ path v) as [l|t]; [discriminate|].
  destruct t as [|a t]; cbn; [discriminate|].
  intros H. injection H as <-. reflexivity.
Qed.

Lemma messageSchema_content (path : list string) (v : option json) (t : Turn) :
  messageSchema path v = inr t -> String.eqb (turn_content t) EmptyString = false.
Proof.
  unfold messageSchema. destruct v as [[| | | | |o]|]; try discriminate.
  cbv zeta.
  destruct (string_min1 _ _ (get "messageId" o)); [discriminate|].
  destruct (string_min1 _ _ (get "chatId" o)); [discriminate|].
  destruct (string_min1 _ _ (get "content" o)) as [|c] eqn:E; [discriminate|].
  intros H. injection H as <-. cbn. exact (string_min1_nonempty _ _ _ _ E).
Qed.

(** What a body that passes the schema was parsed from. *)
Lemma bodySchema_inr (data : json) (body : Body) :
  bodySchema data = inr body ->
  exists o, data = JObj o
    /\ messageSchema ["message"] (get "message" o) = inr (message body)
    /\ systemInstructionsSchema ["systemInstructions"] (get "systemInstructions" o)
       = inr (systemInstructions body).
Proof.
  unfold bodySchema. destruct data as [| | | | |o]; try discriminate.
  cbv zeta.
  destruct (messageSchema _ _) eqn:Em; [discriminate|].
  destruct (optimizationModeSchema _ _); [discriminate|].
  destruct (string_min1 _ _ _); [discriminate|].
  destruct (with_default (array historyItem) _ _ _); [discriminate|].
  destruct (with_default (array string_) _ _ _); [discriminate|].
  destruct (with_default modelSchema _ _ (get "chatModel" o)); [discriminate|].
  destruct (with_default modelSchema _ _ (get "embeddingModel" o)); [discriminate|].
  destruct (systemInstructionsSchema _ _) eqn:Es; [discriminate|].
  intros H. injection H as <-. exists o. cbn [message systemInstructions]. auto.
Qed.

Lemma safeValidateBody_inr (data : json) (body : Body) :
  safeValidateBody data = inr body -> bodySchema data = inr body.
Proof.
  unfold safeValidateBody. destruct (bodySchema data); [discriminate|].
  intros H. now injection H as <-.
Qed.

Lemma validated_content_nonempty (data : json) (body : Body) :
  safeValidateBody data = inr body ->
  String.eqb (turn_content (message body)) EmptyString = false.
Proof.
  intros H. apply safeValidateBody_inr, bodySchema_inr in H as (o & _ & Hm & _).
  exact (messageSchema_content _ _ _ Hm).
Qed.

(** A streamed response comes from a validated body, whose fields the
    handler call carries. *)
Lemma POST_stream_inv (env : Env) (req_json : Try json) (call : HandlerCall)
    (tasks : Launched) :
  POST env req_json = Response_stream call tasks ->
  exists data body,
    req_json = Some data
    /\ safeValidateBody data = inr body
    /\ call_query call = turn_content (message body)
    /\ call_systemInstructions call = systemInstructions body
    /\ bridge_chatId tasks = turn_chatId (message body)
    /\ save_message tasks = message body.
Proof.
  unfold POST, POST_try. destruct req_json as [data|]; [|discriminate].
  cbn [bind]. destruct (safeValidateBody data) as [e|body] eqn:V; [discriminate|].
  intros H. exists data, body. split; [reflexivity|]. split; [exact V|].
  revert H. unfold bind, deref.
  route_cases; intros H; try discriminate; injection H as <- <-; cbn; auto.
Qed.

Example sample_request_is_valid : safeValidateBody (JObj sample_request) = inr sample_body.
Proof. reflexivity. Qed.

(** C10.  A body that passes the schema has a non-empty [message.content],
    so the route never answers with the empty-content response: the guard
    after validation is dead code. *)
Theorem C10_empty_content_guard_is_unreachable (env : Env) (req_json : Try json) :
  (forall data body,
      safeValidateBody data = inr body ->
      String.eqb (turn_content (message body)) EmptyString = false)
  /\ POST env req_json <> empty_content_response.
Proof.
  split; [exact validated_content_nonempty|].
  unfold POST, POST_try, empty_content_response.
  destruct req_json as [data|]; cbn [bind]; [|discriminate].
  destruct (safeValidateBody data) as [e|body] eqn:V; [discriminate|].
  cbv zeta. rewrite (validated_content_nonempty _ _ V).
  unfold bind, deref. route_cases; discriminate.
Qed.

Lemma C10_witness :
  String.eqb (turn_content (message sample_body)) EmptyString = false
  /\ POST sample_env (Some (JObj sample_request)) <> empty_content_response.
Proof.
  destruct (C10_empty_content_guard_is_unreachable sample_env (Some (JObj sample_request)))
    as [Hcontent Hroute].
  split; [exact (Hcontent (JObj sample_request) sample_body eq_refl) | exact Hroute].
Defined.

(** C7, as the code has it.  When the request reaches the handler, the
    handler's [systemInstructions] argument is the built-in text exactly
    when the request has no [systemInstructions]; a [null] is handed over
    as [null], and a string, empty or not, as it is. *)
Theorem C7_default_instructions_only_when_absent
    (env : Env) (o : list (string * json)) (call : HandlerCall) (tasks : Launched) :
  POST env (Some (JObj o)) = Response_stream call tasks ->
  match get "systemInstructions" o with
  | None => call_systemInstructions call = Some DEFAULT_SYSTEM_INSTRUCTIONS
  | Some JNull => call_systemInstructions call = None
  | Some (JStr s) => call_systemInstructions call = Some s
  | Some _ => False
  end.
Proof.
  intros H.
  apply POST_stream_inv in H as (data & body & Hreq & V & _ & Hsi & _).
  injection Hreq as <-.
  apply safeValidateBody_inr, bodySchema_inr in V as (o' & Ho & _ & Hs).
  injection Ho as <-. rewrite Hsi. revert Hs.
  unfold systemInstructionsSchema.
  destruct (get "systemInstructions" o) as [[| | | | |]|]; cbn;
    intros Hs; try discriminate; now injection Hs as <-.
Qed.

Lemma C7_witness :
  exists call tasks,
    POST sample_env (Some (JObj sample_request)) = Response_stream call tasks
    /\ call_systemInstructions call = Some DEFAULT_SYSTEM_INSTRUCTIONS.
Proof.
  eexists. eexists. split; [reflexivity|].
  exact (C7_default_instructions_only_when_absent sample_env sample_request _ _ eq_refl).
Defined.

(** C7 as stated fails for [null]: the request is valid and reaches the
    handler, which receives [null] and not the built-in text. *)
Lemma C7_null_instructions_reach_the_handler :
  let o := (sample_request ++ [("systemInstructions", JNull)])%list in
  get "systemInstructions" o = Some JNull
  /\ exists call tasks,
       POST sample_env (Some (JObj o)) = Response_stream call tasks
       /\ call_systemInstructions call = None
       /\ call_systemInstructions call <> Some DEFAULT_SYSTEM_INSTRUCTIONS.
Proof.
  cbv zeta. split; [reflexivity|].
  eexists. eexists. split; [reflexivity|]. split; [reflexivity | discriminate].
Qed.

(** With no chat model provider at all, a validated request that names no
    provider never gets the short 400: reading the model of an undefined
    provider throws, and the route answers with the generic 500. *)
Lemma POST_empty_chat_catalog (env : Env) (data : json) (body : Body) :
  safeValidateBody data = inr body ->
  provider (chatModel body) = None ->
  chatModelProviders env = [] ->
  POST env (Some data) = generic_failure.
Proof.
  intros V Hp Hempty. unfold POST, POST_try. cbn [bind]. rewrite V. cbv zeta.
  rewrite (validated_content_nonempty _ _ V), Hp, Hempty. reflexivity.
Qed.

(** C5 fails on the code for an empty catalog and for a provider the
    catalog does not have: the request is valid, and the answer is the
    generic 500 instead of 400 [Invalid chat model] or 400 [Invalid
    embedding model].  The short 400 is reached only when the provider
    exists and the chat model does not, or when the embedding entry has no
    handle. *)
Theorem C5_missing_provider_is_a_generic_500 :
  let no_chat_models :=
    mkEnv [] (embeddingModelProviders sample_env) (searchHandlers sample_env)
          "key" "custom model" "http://localhost" in
  let no_embedding_models :=
    mkEnv (chatModelProviders sample_env) [] (searchHandlers sample_env)
          "key" "custom model" "http://localhost" in
  let no_embedding_handle :=
    mkEnv (chatModelProviders sample_env)
          [("openai", [("text-embedding-3", mkModelEntry None)])]
          (searchHandlers sample_env) "key" "custom model" "http://localhost" in
  let unknown_provider :=
    (sample_request ++ [("chatModel", JObj [("provider", JStr "nobody")])])%list in
  let unknown_model :=
    (sample_request ++ [("chatModel", JObj [("name", JStr "gpt-0")])])%list in
  POST no_chat_models (Some (JObj sample_request)) = generic_failure
  /\ POST no_embedding_models (Some (JObj sample_request)) = generic_failure
  /\ POST sample_env (Some (JObj unknown_provider)) = generic_failure
  /\ POST sample_env (Some (JObj unknown_model)) =
     Response_json (JObj [("error", JStr "Invalid chat model")]) 400
  /\ POST no_embedding_handle (Some (JObj sample_request)) =
     Response_json (JObj [("error", JStr "Invalid embedding model")]) 400.
Proof. repeat split; reflexivity. Qed.

(** * Further properties of the route *)

(** ** Sequence numbers *)

Lemma sorted_snoc {A} (R : A -> A -> Prop) (l : list A) (x : A) :
  StronglySorted R l -> Forall (fun a => R a x) l -> StronglySorted R (l ++ [x]).
Proof.
  induction l as [|a l IH]; intros Hs Hx; cbn.
  - repeat constructor.
  - inversion Hs as [|? ? Hl Ha]; subst. inversion Hx as [|? ? Hax Hlx]; subst.
    constructor; [auto|].
    apply Forall_app. split; [exact Ha | constructor; [exact Hax | constructor]].
Qed.

Lemma sorted_filter {A} (R : A -> A -> Prop) (p : A -> bool) (l : list A) :
  StronglySorted R l -> StronglySorted R (filter p l).
Proof.
  induction 1 as [|a l Hl IH Ha]; cbn; [constructor|].
  destruct (p a); [|exact IH].
  constructor; [exact IH|].
  rewrite Forall_forall in *. intros x Hx. apply filter_In in Hx. apply Ha, Hx.
Qed.

Lemma Forall_filter {A} (P : A -> Prop) (p : A -> bool) (l : list A) :
  Forall P l -> Forall P (filter p l).
Proof.
  rewrite !Forall_forall. intros H x Hx. apply filter_In in Hx. apply H, Hx.
Qed.

(** Every statement keeps the rows in increasing order and below the next
    sequence number. *)
Lemma execute_keeps_order (q : Statement) (s : Store) :
  store_ok s -> store_ok (execute q s) /\ next_id s <= next_id (execute q s).
Proof.
  intros [Hs Hb]. destruct q as [c|f i|c cid mid r src d|n cid]; cbn [execute].
  - split; [split; assumption | cbn; lia].
  - split; [split; assumption | cbn; lia].
  - split; [|cbn; lia]. split; cbn [messages next_id].
    + apply sorted_snoc; [exact Hs|]. exact Hb.
    + apply Forall_app. split.
      * eapply Forall_impl; [|exact Hb]. cbn. intros; lia.
      * constructor; [cbn; lia | constructor].
  - split; [|cbn; lia]. split; cbn [messages next_id].
    + apply sorted_filter, Hs.
    + apply Forall_filter, Hb.
Qed.

Lemma sorted_ids_unique (l : list Msg.t) :
  StronglySorted (fun a b => Msg.id a < Msg.id b) l -> NoDup (map Msg.id l).
Proof.
  induction 1 as [|a l Hl IH Ha]; cbn; constructor; [|exact IH].
  intros Hin. apply in_map_iff in Hin as (m & Hm & Hin).
  rewrite Forall_forall in Ha. specialize (Ha m Hin). lia.
Qed.

(** ** What the bridge does to storage *)

Section BridgeStore.

Variable entropy : nat -> Byte.byte.
Variable Date_toString : nat -> string.

Lemma emit_store (e : Event) (b : Bridge) :
  chats (store (world (emit entropy Date_toString e b))) = chats (store (world b))
  /\ exists new,
       messages (store (world (emit entropy Date_toString e b))) =
         (messages (store (world b)) ++ new)%list
       /\ next_id (store (world (emit entropy Date_toString e b))) =
          next_id (store (world b)) + List.length new
       /\ List.length new = (if persists e then 1 else 0)
       /\ Forall (appended_by b) new.
Proof.
  destruct e as [pd| |pd]; cbn [emit persists].
  - unfold on_data. destruct (type_is pd "response"); cbn [negb andb].
    + split; [reflexivity|]. exists []. cbn. rewrite app_nil_r, Nat.add_0_r. auto.
    + destruct (type_is pd "sources").
      * cbn [random_id now run_statement world store execute chats messages next_id].
        split; [reflexivity|]. eexists. split; [reflexivity|].
        cbn. repeat split; try lia. constructor; [|constructor].
        unfold appended_by. cbn. auto.
      * split; [reflexivity|]. exists []. cbn. rewrite app_nil_r, Nat.add_0_r. auto.
  - unfold on_end.
    cbn [now run_statement world store execute chats messages next_id].
    split; [reflexivity|]. eexists. split; [reflexivity|].
    cbn. repeat split; try lia. constructor; [|constructor].
    unfold appended_by. cbn. auto.
  - unfold on_error. cbn [world].
    split; [reflexivity|]. exists []. cbn. rewrite app_nil_r, Nat.add_0_r. auto.
Qed.

Lemma emit_keeps_order (e : Event) (b : Bridge) :
  store_ok (store (world b)) -> store_ok (store (world (emit entropy Date_toString e b))).
Proof.
  intros Hok. destruct e as [pd| |pd]; cbn [emit].
  - unfold on_data. destruct (type_is pd "response"); [exact Hok|].
    destruct (type_is pd "sources"); [|exact Hok].
    cbn [random_id now run_statement world store].
    apply execute_keeps_order, Hok.
  - unfold on_end. cbn [now run_statement world store].
    apply execute_keeps_order, Hok.
  - exact Hok.
Qed.

Lemma emit_all_store (es : list Event) (b : Bridge) :
  chats (store (world (emit_all entropy Date_toString es b))) = chats (store (world b))
  /\ exists new,
       messages (store (world (emit_all entropy Date_toString es b))) =
         (messages (store (world b)) ++ new)%list
       /\ next_id (store (world (emit_all entropy Date_toString es b))) =
          next_id (store (world b)) + List.length new
       /\ List.length new = List.length (filter persists es)
       /\ Forall (appended_by b) new.
Proof.
  revert b. induction es as [|e es IH]; intros b.
  - split; [reflexivity|]. exists []. cbn. rewrite app_nil_r, Nat.add_0_r. auto.
  - rewrite emit_all_cons.
    destruct (IH (emit entropy Date_toString e b)) as (Hc & new2 & Hm & Hn & Hl & Hf).
    destruct (emit_store e b) as (Hc1 & new1 & Hm1 & Hn1 & Hl1 & Hf1).
    destruct (emit_constants entropy Date_toString e b) as [_ Hcid].
    split; [congruence|]. exists (new1 ++ new2)%list.
    rewrite Hm, Hm1, Hn, Hn1, length_app, <- app_assoc.
    repeat split; try lia.
    + cbn [filter]. destruct (persists e); cbn [List.length]; lia.
    + apply Forall_app. split; [exact Hf1|].
      eapply Forall_impl; [|exact Hf]. unfold appended_by.
      intros m (H1 & H2 & H3). rewrite Hcid in H1. repeat split; [exact H1 | lia | exact H3].
Qed.

Lemma emit_all_keeps_order (es : list Event) (b : Bridge) :
  store_ok (store (world b)) ->
  store_ok (store (world (emit_all entropy Date_toString es b))).
Proof.
  revert b. induction es as [|e es IH]; intros b Hok; [exact Hok|].
  rewrite emit_all_cons. apply IH, emit_keeps_order, Hok.
Qed.

(** Rows a run of [data] events appends: one per [sources] event, each a
    source row of the chat carrying a 14-character hexadecimal id. *)
Lemma data_run_store (evs : list (list (string * json))) (b : Bridge) :
  exists new,
    messages (store (world (emit_all entropy Date_toString (map ev_data evs) b))) =
      (messages (store (world b)) ++ new)%list
    /\ Forall (fun m => Msg.role m = source /\ Msg.content m = None
                        /\ String.length (Msg.messageId m) = 14
                        /\ all_chars is_hex_char (Msg.messageId m) = true) new.
Proof.
  revert b. induction evs as [|pd evs IH]; intros b.
  - exists []. cbn. rewrite app_nil_r. auto.
  - cbn [map]. rewrite emit_all_cons. cbn [emit].
    destruct (IH (on_data entropy Date_toString pd b)) as (new2 & Hm & Hf).
    rewrite Hm. unfold on_data.
    destruct (type_is pd "response"); [exists new2; auto|].
    destruct (type_is pd "sources"); [|exists new2; auto].
    cbn [random_id now run_statement world store execute messages].
    eexists. rewrite <- app_assoc. split; [reflexivity|].
    constructor; [|exact Hf]. cbn.
    destruct (hex_shape (randomBytes entropy (drawn (world b)) 7)) as [Hl Hh].
    rewrite randomBytes_length in Hl. auto.
Qed.

End BridgeStore.

(** X1.  Whatever the answer stream emits, the bridge leaves the chats
    alone and only appends Messages: one per [sources] event and one per
    [end] event, each in the turn's chat, numbered from the next sequence
    number on, with role [source] or [assistant]. *)
Theorem X1_bridge_only_appends_rows_of_its_chat
    (entropy : nat -> Byte.byte) (Date_toString : nat -> string)
    (wr : Writer) (cid : string) (w : World) (es : list Event) :
  let b := emit_all entropy Date_toString es (handleEmitterEvents entropy wr cid w) in
  chats (store (world b)) = chats (store w)
  /\ exists new,
       messages (store (world b)) = (messages (store w) ++ new)%list
       /\ List.length new = List.length (filter persists es)
       /\ next_id (store (world b)) = next_id (store w) + List.length new
       /\ Forall (fun m => Msg.chatId m = cid /\ next_id (store w) <= Msg.id m
                           /\ Msg.role m <> user) new.
Proof.
  intros b.
  destruct (emit_all_store entropy Date_toString es (handleEmitterEvents entropy wr cid w))
    as (Hc & new & Hm & Hn & Hl & Hf).
  fold b in Hc, Hm, Hn. split; [exact Hc|]. exists new.
  repeat split; try assumption.
  eapply Forall_impl; [|exact Hf]. unfold appended_by. cbn.
  intros m (H1 & H2 & [H3|H3]); rewrite H3; repeat split; auto; discriminate.
Qed.

(** X2.  A turn that fails persists no answer: after any [data] events
    and an [error], storage is what the [data] events left, the rows added
    are source rows (no content, a 14-character hexadecimal id), and the
    text accumulated so far is in none of them. *)
Theorem X2_failed_turn_persists_no_answer
    (entropy : nat -> Byte.byte) (Date_toString : nat -> string)
    (cid : string) (w : World) (evs : list (list (string * json)))
    (err : list (string * json)) :
  let b0 := handleEmitterEvents entropy fresh_writer cid w in
  let b1 := emit_all entropy Date_toString (map ev_data evs) b0 in
  let b2 := emit_all entropy Date_toString (map ev_data evs ++ [ev_error err]) b0 in
  store (world b2) = store (world b1)
  /\ exists new,
       messages (store (world b2)) = (messages (store w) ++ new)%list
       /\ Forall (fun m => Msg.role m = source /\ Msg.content m = None
                           /\ String.length (Msg.messageId m) = 14
                           /\ all_chars is_hex_char (Msg.messageId m) = true) new.
Proof.
  intros b0 b1 b2.
  assert (E : store (world b2) = store (world b1)).
  { unfold b2. rewrite emit_all_app. reflexivity. }
  split; [exact E|]. rewrite E.
  exact (data_run_store entropy Date_toString evs b0).
Qed.

(** ** What the reconciler does to storage *)

Lemma find_app_none {A} (p : A -> bool) (l l' : list A) :
  find p l = None -> find p (l ++ l') = find p l'.
Proof.
  induction l as [|x l IH]; cbn; [reflexivity|].
  destruct (p x); [discriminate | exact IH].
Qed.

Lemma filter_all {A} (p : A -> bool) (l : list A) :
  Forall (fun x => p x = true) l -> filter p l = l.
Proof. induction 1 as [|x l Hx _ IH]; cbn; [reflexivity|]. now rewrite Hx, IH. Qed.

Lemma filter_none {A} (p : A -> bool) (l : list A) :
  Forall (fun x => p x = false) l -> filter p l = [].
Proof. induction 1 as [|x l Hx _ IH]; cbn; [reflexivity|]. now rewrite Hx, IH. Qed.

Section ReconcilerStore.

Variable Date_toString : nat -> string.
Variable getFileDetails : string -> json.

Lemma reconcile_keeps_order (message : Turn) (hm fm : string) (files : list string)
    (w : World) :
  store_ok (store w) ->
  store_ok (store (handleHistorySave Date_toString getFileDetails message hm fm files w)).
Proof.
  intros Hok. unfold handleHistorySave, findFirst_message. cbv zeta.
  destruct (findFirst_chat (turn_chatId message) (store w)) as [c|]; cbv beta iota.
  - destruct (negb _);
      (destruct (find _ (messages (store w))) as [found|];
       cbn [now run_statement store]; apply execute_keeps_order, Hok).
  - cbn [now run_statement store execute messages next_id].
    assert (Hok' : store_ok (execute
                     (insert_chat (Chat.mk (turn_chatId message) (turn_content message)
                        (Date_toString (ticks w)) fm (Some (map getFileDetails files))))
                     (store w))) by (apply execute_keeps_order, Hok).
    cbn [execute] in Hok'.
    destruct (find _ (messages (store w))) as [found|];
      cbn [now run_statement store];
      match goal with |- store_ok (execute ?q ?s) => apply (execute_keeps_order q s), Hok' end.
Qed.

(** After one run of the reconciler the turn's chat is stored. *)
Lemma reconcile_chat_exists (message : Turn) (hm fm : string) (files : list string)
    (w : World) :
  exists c,
    findFirst_chat (turn_chatId message)
      (store (handleHistorySave Date_toString getFileDetails message hm fm files w)) = Some c.
Proof.
  unfold findFirst_chat at 1. rewrite reconcile_chats.
  destruct (findFirst_chat (turn_chatId message) (store w)) as [c|] eqn:E.
  - exists c. exact E.
  - eexists.
    exact (findFirst_chat_after_insert
             (Chat.mk (turn_chatId message) (turn_content message)
                      (Date_toString (ticks w)) fm (Some (map getFileDetails files)))
             (store w) E).
Qed.

End ReconcilerStore.

(** X3.  Sequence numbers stay in order.  If the stored Messages are in
    strictly increasing sequence number, all below the next number to
    assign, then so they are after the reconciler has run and after the
    bridge has handled any events; in particular no two rows ever share a
    sequence number. *)
Theorem X3_sequence_numbers_stay_ordered
    (entropy : nat -> Byte.byte) (Date_toString : nat -> string)
    (getFileDetails : string -> json)
    (message : Turn) (hm fm : string) (files : list string) (w : World)
    (b : Bridge) (es : list Event) :
  store_ok (store w) ->
  store_ok (store (world b)) ->
  let w1 := handleHistorySave Date_toString getFileDetails message hm fm files w in
  let b1 := emit_all entropy Date_toString es b in
  store_ok (store w1)
  /\ store_ok (store (world b1))
  /\ NoDup (map Msg.id (messages (store w1)))
  /\ NoDup (map Msg.id (messages (store (world b1)))).
Proof.
  intros Hw Hb w1 b1.
  pose proof (reconcile_keeps_order Date_toString getFileDetails message hm fm files w Hw)
    as H1.
  pose proof (emit_all_keeps_order entropy Date_toString es b Hb) as H2.
  fold w1 in H1. fold b1 in H2.
  repeat split; try apply H1; try apply H2; apply sorted_ids_unique; [apply H1 | apply H2].
Qed.

Lemma sample_world_ok : store_ok (store sample_world).
Proof. split; constructor. Defined.

Lemma X3_witness :
  NoDup (map Msg.id
           (messages (store (world
              (emit_all sample_entropy sample_clock
                 [ev_data (sources_event []); ev_end; ev_end]
                 (handleEmitterEvents sample_entropy fresh_writer "c1" sample_world)))))).
Proof.
  exact (proj2 (proj2 (proj2
           (X3_sequence_numbers_stay_ordered sample_entropy sample_clock sample_files
              (mkTurn "m1" "c1" "hello") "m1" "webSearch" [] sample_world
              (handleEmitterEvents sample_entropy fresh_writer "c1" sample_world)
              [ev_data (sources_event []); ev_end; ev_end]
              sample_world_ok sample_world_ok)))).
Defined.

(** X4.  A turn whose [messageId] storage does not hold is stored as one
    user Message at the end of the table, with the turn's content and chat
    and the next sequence number, and a lookup by that [messageId] then
    returns this row. *)
Theorem X4_first_submission_is_stored_and_found
    (Date_toString : nat -> string) (getFileDetails : string -> json)
    (message : Turn) (hm fm : string) (files : list string) (w : World) :
  findFirst_message hm (store w) = None ->
  let w1 := handleHistorySave Date_toString getFileDetails message hm fm files w in
  exists createdAt,
    let asked := Msg.mk (next_id (store w)) (Some (turn_content message))
                        (turn_chatId message) hm user None createdAt in
    messages (store w1) = (messages (store w) ++ [asked])%list
    /\ next_id (store w1) = S (next_id (store w))
    /\ findFirst_message hm (store w1) = Some asked.
Proof.
  intros Hnone w1.
  pose proof (reconcile_messages Date_toString getFileDetails message hm fm files w) as R.
  cbv zeta in R. rewrite Hnone in R. destruct R as (createdAt & Hm & Hn).
  fold w1 in Hm, Hn. exists createdAt. cbv zeta.
  split; [exact Hm|]. split; [exact Hn|].
  unfold findFirst_message in *. rewrite Hm, (find_app_none _ _ _ Hnone).
  cbn. now rewrite String.eqb_refl.
Qed.

Lemma X4_witness :
  map Msg.content
      (messages (store (handleHistorySave sample_clock sample_files
                          (mkTurn "m1" "c1" "hello") "m1" "webSearch" [] sample_world))) =
  [Some "hello"].
Proof.
  destruct (X4_first_submission_is_stored_and_found sample_clock sample_files
              (mkTurn "m1" "c1" "hello") "m1" "webSearch" [] sample_world eq_refl)
    as (createdAt & H & _).
  rewrite H. reflexivity.
Defined.

(** X5.  Submitting the same new turn twice changes nothing the second
    time.  On ordered storage that does not hold the turn's [messageId],
    the first run stores the user Message (and the chat, if new); a second
    run for the same [messageId] and chat, whatever its files and focus
    mode, leaves chats, Messages and the next sequence number as they are. *)
Theorem X5_second_submission_changes_nothing
    (Date_toString : nat -> string) (getFileDetails : string -> json)
    (message : Turn) (hm fm fm2 : string) (files files2 : list string) (w : World) :
  store_ok (store w) ->
  findFirst_message hm (store w) = None ->
  let w1 := handleHistorySave Date_toString getFileDetails message hm fm files w in
  let w2 := handleHistorySave Date_toString getFileDetails message hm fm2 files2 w1 in
  chats (store w2) = chats (store w1)
  /\ messages (store w2) = messages (store w1)
  /\ next_id (store w2) = next_id (store w1).
Proof.
  intros [Hs Hb] Hnone w1 w2.
  destruct (reconcile_chat_exists Date_toString getFileDetails message hm fm files w)
    as [c Hc].
  fold w1 in Hc.
  split.
  { unfold w2. rewrite reconcile_chats, Hc. reflexivity. }
  pose proof (reconcile_messages Date_toString getFileDetails message hm fm files w) as R1.
  cbv zeta in R1. rewrite Hnone in R1. destruct R1 as (createdAt & Hm & Hn).
  fold w1 in Hm, Hn.
  set (asked := Msg.mk (next_id (store w)) (Some (turn_content message))
                       (turn_chatId message) hm user None createdAt) in *.
  assert (Hfound : findFirst_message hm (store w1) = Some asked).
  { unfold findFirst_message in *. rewrite Hm, (find_app_none _ _ _ Hnone).
    cbn. now rewrite String.eqb_refl. }
  pose proof (reconcile_messages Date_toString getFileDetails message hm fm2 files2 w1) as R2.
  cbv zeta in R2. rewrite Hfound in R2. destruct R2 as [Hm2 Hn2]. fold w2 in Hm2, Hn2.
  split; [|exact Hn2].
  rewrite Hm2. apply filter_all. rewrite Hm. apply Forall_app. split.
  - eapply Forall_impl; [|exact Hb]. cbn beta. intros m Hlt.
    apply negb_true_iff, andb_false_iff. left. apply Nat.ltb_ge.
    unfold asked. cbn. lia.
  - constructor; [|constructor]. now rewrite Nat.ltb_irrefl.
Qed.

Lemma X5_witness :
  let w1 := handleHistorySave sample_clock sample_files (mkTurn "m1" "c1" "hello")
              "m1" "webSearch" [] sample_world in
  messages (store (handleHistorySave sample_clock sample_files (mkTurn "m1" "c1" "hello")
                     "m1" "academicSearch" ["f1"] w1)) = messages (store w1).
Proof.
  exact (proj1 (proj2
           (X5_second_submission_changes_nothing sample_clock sample_files
              (mkTurn "m1" "c1" "hello") "m1" "webSearch" "academicSearch" [] ["f1"]
              sample_world sample_world_ok eq_refl))).
Defined.

(** X6.  The reconciler never touches the Messages of another chat: a
    row whose chat is not the turn's is stored after the run exactly when
    it was stored before. *)
Theorem X6_other_chats_keep_their_messages
    (Date_toString : nat -> string) (getFileDetails : string -> json)
    (message : Turn) (hm fm : string) (files : list string) (w : World) (m : Msg.t) :
  Msg.chatId m <> turn_chatId message ->
  (In m (messages (store (handleHistorySave Date_toString getFileDetails
                            message hm fm files w)))
   <-> In m (messages (store w))).
Proof.
  intros Hother.
  pose proof (reconcile_messages Date_toString getFileDetails message hm fm files w) as R.
  cbv zeta in R.
  destruct (findFirst_message hm (store w)) as [found|].
  - destruct R as [Hm _]. rewrite Hm, filter_In.
    apply String.eqb_neq in Hother. rewrite Hother, andb_false_r. cbn. tauto.
  - destruct R as (createdAt & Hm & _). rewrite Hm, in_app_iff. cbn.
    split; [|tauto]. intros [H|[H|[]]]; [exact H|].
    subst m. cbn in Hother. contradiction.
Qed.

Lemma X6_witness :
  In stored_elsewhere
     (messages (store (handleHistorySave sample_clock sample_files
                         (mkTurn "m1" "c1" "hello again") "m1" "webSearch" []
                         (two_chats [stored_elsewhere; stored_question; stored_answer])))).
Proof.
  apply (X6_other_chats_keep_their_messages sample_clock sample_files
           (mkTurn "m1" "c1" "hello again") "m1" "webSearch" []
           (two_chats [stored_elsewhere; stored_question; stored_answer]) stored_elsewhere).
  - discriminate.
  - left. reflexivity.
Defined.

(** ** A whole turn, and its edit *)

(** X7.  Editing a turn discards what followed it.  A new turn on ordered
    storage, served with the reconciler finishing before the stream's
    events, leaves the user Message followed by the rows the bridge
    persisted (one per [sources] and per [end] event); resubmitting that
    turn afterwards deletes exactly those rows: the table is the old one
    followed by the user Message. *)
Theorem X7_edit_discards_the_answer_of_the_turn
    (entropy : nat -> Byte.byte) (Date_toString : nat -> string)
    (getFileDetails : string -> json) (tasks : Launched) (es : list Event) (w : World) :
  store_ok (store w) ->
  findFirst_message (save_humanMessageId tasks) (store w) = None ->
  bridge_chatId tasks = turn_chatId (save_message tasks) ->
  let b := serve_turn entropy Date_toString getFileDetails tasks es w in
  exists asked new,
    messages (store (world b)) = (messages (store w) ++ asked :: new)%list
    /\ Msg.role asked = user
    /\ Msg.messageId asked = save_humanMessageId tasks
    /\ Msg.content asked = Some (turn_content (save_message tasks))
    /\ List.length new = List.length (filter persists es)
    /\ messages (store (handleHistorySave Date_toString getFileDetails (save_message tasks)
                          (save_humanMessageId tasks) (save_focusMode tasks)
                          (save_files tasks) (world b))) =
       (messages (store w) ++ [asked])%list.
Proof.
  intros [Hs Hb] Hnone Hchat b.
  set (b0 := handleEmitterEvents entropy fresh_writer (bridge_chatId tasks) w).
  set (w1 := handleHistorySave Date_toString getFileDetails (save_message tasks)
               (save_humanMessageId tasks) (save_focusMode tasks) (save_files tasks)
               (world b0)).
  pose proof (reconcile_messages Date_toString getFileDetails (save_message tasks)
                (save_humanMessageId tasks) (save_focusMode tasks) (save_files tasks)
                (world b0)) as R1.
  cbv zeta in R1. fold w1 in R1.
  change (store (world b0)) with (store w) in R1.
  rewrite Hnone in R1. destruct R1 as (createdAt & Hm1 & Hn1).
  set (asked := Msg.mk (next_id (store w)) (Some (turn_content (save_message tasks)))
                       (turn_chatId (save_message tasks)) (save_humanMessageId tasks)
                       user None createdAt) in *.
  set (B := mkBridge (recievedMessage b0) (aiMessageId b0) (chatId b0) (writer b0) w1).
  destruct (emit_all_store entropy Date_toString es B) as (_ & new & Hm & _ & Hl & Hf).
  change (emit_all entropy Date_toString es B) with b in Hm.
  change (store (world B)) with (store w1) in Hm, Hf.
  assert (Hall : messages (store (world b)) = (messages (store w) ++ asked :: new)%list).
  { rewrite Hm, Hm1, <- app_assoc. reflexivity. }
  exists asked, new. repeat split; try assumption; try reflexivity.
  pose proof (reconcile_messages Date_toString getFileDetails (save_message tasks)
                (save_humanMessageId tasks) (save_focusMode tasks) (save_files tasks)
                (world b)) as R2.
  cbv zeta in R2.
  assert (Hfound : findFirst_message (save_humanMessageId tasks) (store (world b))
                   = Some asked).
  { unfold findFirst_message in *. rewrite Hall, (find_app_none _ _ _ Hnone).
    cbn. now rewrite String.eqb_refl. }
  rewrite Hfound in R2. destruct R2 as [Hm2 _]. rewrite Hm2, Hall.
  rewrite filter_app. cbn [filter].
  rewrite Nat.ltb_irrefl. cbn [andb negb]. f_equal.
  - apply filter_all. eapply Forall_impl; [|exact Hb]. cbn beta. intros m Hlt.
    apply negb_true_iff, andb_false_iff. left. apply Nat.ltb_ge.
    unfold asked. cbn. lia.
  - f_equal. apply filter_none. eapply Forall_impl; [|exact Hf].
    unfold appended_by. cbn beta. intros m (Hc & Hid & _).
    apply negb_false_iff, andb_true_iff. split.
    + apply Nat.ltb_lt. unfold asked. cbn. unfold B in Hid. cbn in Hid. lia.
    + apply String.eqb_eq. rewrite Hc. unfold B. cbn. exact Hchat.
Qed.

Lemma X7_witness :
  let b := serve_turn sample_entropy sample_clock sample_files sample_tasks
             [ev_data (response_event "Hi"); ev_data (sources_event []); ev_end]
             sample_world in
  map Msg.role (messages (store (world b))) = [user; source; assistant]
  /\ map Msg.role
         (messages (store (handleHistorySave sample_clock sample_files
                             (mkTurn "m1" "c1" "hello") "m1" "webSearch" [] (world b)))) =
     [user].
Proof.
  destruct (X7_edit_discards_the_answer_of_the_turn sample_entropy sample_clock sample_files
              sample_tasks
              [ev_data (response_event "Hi"); ev_data (sources_event []); ev_end]
              sample_world sample_world_ok eq_refl eq_refl)
    as (asked & new & _ & Hrole & _ & _ & _ & Hedit).
  split; [reflexivity|].
  cbv zeta.
  cbn [save_message save_humanMessageId save_focusMode save_files sample_tasks] in Hedit.
  rewrite Hedit. rewrite map_app. cbn. now rewrite Hrole.
Defined.

(** X8.  Every record of a completed turn is framed: when the stream
    emits [data] events and then [end], each chunk handed to the writer is
    one JSON object on a single line followed by a newline, also when the
    text fragments themselves contain line breaks. *)
Theorem X8_records_of_a_completed_turn_are_framed
    (entropy : nat -> Byte.byte) (Date_toString : nat -> string)
    (cid : string) (w : World) (evs : list (list (string * json))) :
  Forall (fun pd => payload_on_one_line (get "data" pd) = true) evs ->
  let b := emit_all entropy Date_toString (map ev_data evs ++ [ev_end])
             (handleEmitterEvents entropy fresh_writer cid w) in
  Forall framed (chunks (writer b)) /\ closed (writer b) = true.
Proof.
  intros Hwf b.
  set (b0 := handleEmitterEvents entropy fresh_writer cid w).
  assert (Hopen : closed (writer b0) = false) by reflexivity.
  destruct (data_run entropy Date_toString evs b0 Hopen) as (Ho & Hch & _).
  destruct (terminal_step entropy Date_toString ev_end _ eq_refl Ho) as [Hc Hk].
  unfold b. rewrite emit_all_app, emit_all_cons. unfold emit_all at 1. cbn [fold_left].
  fold b0. split; [|exact Hc]. rewrite Hk, Hch.
  remember (aiMessageId b0) as mid eqn:Emid. clear Emid.
  change (chunks (writer b0)) with (@nil string). cbn [app terminal_record].
  apply Forall_app. split.
  - clear -Hwf.
    induction Hwf as [|pd evs Hpd _ IH]; [constructor|].
    unfold relayed. cbn [flat_map]. fold (relayed mid evs).
    destruct (data_records_framed (get "data" pd) mid Hpd) as (Hm & Hs & _).
    destruct (type_is pd "response"); [constructor; assumption|].
    destruct (type_is pd "sources"); [constructor; assumption | exact IH].
  - constructor; [|constructor].
    exact (proj2 (proj2 (data_records_framed None EmptyString eq_refl))).
Qed.

Lemma X8_witness :
  Forall framed
    (chunks (writer
       (emit_all sample_entropy sample_clock
          (map ev_data [response_event ("two" ++ str1 newline ++ "lines")] ++ [ev_end])
          (handleEmitterEvents sample_entropy fresh_writer "c1" sample_world)))).
Proof.
  apply (X8_records_of_a_completed_turn_are_framed sample_entropy sample_clock "c1"
           sample_world [response_event ("two" ++ str1 newline ++ "lines")]).
  constructor; [reflexivity | constructor].
Defined.

(** ** Validation failures *)

Ltac some_issue :=
  cbn [issues fails_with_issues] in *; try exact I; try discriminate;
  let E := fresh "E" in
  intros E;
  repeat match goal with
         | H : (_ ++ _)%list = [] |- _ => apply app_eq_nil in H; destruct H
         end;
  try discriminate; contradiction.

Lemma string__fails (path : list string) (v : option json) :
  fails_with_issues (string_ path v).
Proof. destruct v as [[| | | | |]|]; cbn; try exact I; discriminate. Qed.

Lemma string_min1_fails (msg : string) (path : list string) (v : option json) :
  fails_with_issues (string_min1 msg path v).
Proof.
  unfold string_min1. pose proof (string__fails path v) as H.
  destruct (string_ path v) as [l|s]; [exact H|].
  destruct (Nat.ltb (String.length s) 1); cbn; [discriminate | exact I].
Qed.

Lemma string_optional_fails (path : list string) (v : option json) :
  fails_with_issues (string_optional path v).
Proof.
  unfold string_optional. destruct v as [j|]; [|exact I].
  pose proof (string__fails path (Some j)) as H.
  destruct (string_ path (Some j)); [exact H | exact I].
Qed.

Lemma array_fails {A} (item : list string -> option json -> Parse A)
    (path : list string) (v : option json) :
  (forall p x, fails_with_issues (item p x)) ->
  fails_with_issues (array item path v).
Proof.
  intros Hitem. unfold array.
  destruct v as [[| | | | vs |]|]; cbn; try discriminate.
  generalize 0. induction vs as [|x vs IH]; intros i; cbn [array_items]; [exact I|].
  pose proof (Hitem (path ++ [index i])%list (Some x)) as H1.
  pose proof (IH (S i)) as H2.
  destruct (item _ _) as [l1|a]; destruct (array_items item path (S i) vs) as [l2|l];
    some_issue.
Qed.

Lemma messageSchema_fails (path : list string) (v : option json) :
  fails_with_issues (messageSchema path v).
Proof.
  unfold messageSchema. destruct v as [[| | | | |o]|]; cbn; try discriminate.
  pose proof (string_min1_fails "Message ID is required" (path ++ ["messageId"])%list
                (get "messageId" o)) as H1.
  pose proof (string_min1_fails "Chat ID is required" (path ++ ["chatId"])%list
                (get "chatId" o)) as H2.
  pose proof (string_min1_fails "Message content is required" (path ++ ["content"])%list
                (get "content" o)) as H3.
  destruct (string_min1 _ _ (get "messageId" o));
    destruct (string_min1 _ _ (get "chatId" o));
    destruct (string_min1 _ _ (get "content" o)); some_issue.
Qed.

Lemma modelSchema_fails (path : list string) (v : option json) :
  fails_with_issues (modelSchema path v).
Proof.
  unfold modelSchema. destruct v as [[| | | | |o]|]; cbn; try discriminate.
  pose proof (string_optional_fails (path ++ ["provider"])%list (get "provider" o)) as H1.
  pose proof (string_optional_fails (path ++ ["name"])%list (get "name" o)) as H2.
  destruct (string_optional _ (get "provider" o));
    destruct (string_optional _ (get "name" o)); some_issue.
Qed.

Lemma optimizationModeSchema_fails (path : list string) (v : option json) :
  fails_with_issues (optimizationModeSchema path v).
Proof.
  unfold optimizationModeSchema. destruct v as [[| | | s | |]|]; cbn; try discriminate.
  destruct (String.eqb s "speed"); [exact I|].
  destruct (String.eqb s "balanced"); [exact I|].
  destruct (String.eqb s "quality"); [exact I | cbn; discriminate].
Qed.

Lemma historyItem_fails (path : list string) (v : option json) :
  fails_with_issues (historyItem path v).
Proof.
  unfold historyItem.
  destruct v as [[| | | | [|a [|b more]] |]|]; cbn zeta; try (cbn; discriminate).
  pose proof (string__fails (path ++ ["0"])%list (Some a)) as H1.
  pose proof (string__fails (path ++ ["1"])%list (Some b)) as H2.
  destruct more; [|cbn; discriminate].
  destruct (string_ _ (Some a)); destruct (string_ _ (Some b)); some_issue.
Qed.

Lemma with_default_fails {A} (schema : list string -> option json -> Parse A) (d : A)
    (path : list string) (v : option json) :
  (forall p x, fails_with_issues (schema p x)) ->
  fails_with_issues (with_default schema d path v).
Proof. intros H. unfold with_default. destruct v; [apply H | exact I]. Qed.

Lemma systemInstructionsSchema_fails (path : list string) (v : option json) :
  fails_with_issues (systemInstructionsSchema path v).
Proof. destruct v as [[| | | | |]|]; cbn; try exact I; discriminate. Qed.

Lemma bodySchema_fails (data : json) : fails_with_issues (bodySchema data).
Proof.
  unfold bodySchema. destruct data as [| | | | |o]; try (cbn; discriminate).
  cbv zeta.
  pose proof (messageSchema_fails ["message"] (get "message" o)) as H1.
  pose proof (optimizationModeSchema_fails ["optimizationMode"]
                (get "optimizationMode" o)) as H2.
  pose proof (string_min1_fails "Focus mode is required" ["focusMode"]
                (get "focusMode" o)) as H3.
  pose proof (with_default_fails (array historyItem) [] ["history"] (get "history" o)
                (fun p x => array_fails historyItem p x historyItem_fails)) as H4.
  pose proof (with_default_fails (array string_) [] ["files"] (get "files" o)
                (fun p x => array_fails string_ p x string__fails)) as H5.
  pose proof (with_default_fails modelSchema (mkModelRef None None) ["chatModel"]
                (get "chatModel" o) modelSchema_fails) as H6.
  pose proof (with_default_fails modelSchema (mkModelRef None None) ["embeddingModel"]
                (get "embeddingModel" o) modelSchema_fails) as H7.
  pose proof (systemInstructionsSchema_fails ["systemInstructions"]
                (get "systemInstructions" o)) as H8.
  destruct (messageSchema _ _); destruct (optimizationModeSchema _ _);
    destruct (string_min1 _ _ _); destruct (with_default (array historyItem) _ _ _);
    destruct (with_default (array string_) _ _ _);
    destruct (with_default modelSchema _ _ (get "chatModel" o));
    destruct (with_default modelSchema _ _ (get "embeddingModel" o));
    destruct (systemInstructionsSchema _ _); some_issue.
Qed.

(** X9.  A body the schema rejects is answered with 400 and the message
    [Invalid request body], and the itemized error list of that answer is
    never empty: every rejection reports at least one issue. *)
Theorem X9_rejected_body_is_400_with_issues (env : Env) (data : json) (error : list json) :
  safeValidateBody data = inl error ->
  error <> [] /\ POST env (Some data) = invalid_body_response error.
Proof.
  intros V. split.
  - revert V. unfold safeValidateBody. pose proof (bodySchema_fails data) as H.
    destruct (bodySchema data) as [errs|body]; [|discriminate].
    cbn in H. intros V. injection V as <-. destruct errs; [contradiction | discriminate].
  - unfold POST, POST_try. cbn [bind]. rewrite V. reflexivity.
Qed.

Lemma X9_witness :
  POST sample_env (Some (JObj [("message", sample_message)])) =
  invalid_body_response
    [JObj [("path", JStr "optimizationMode");
           ("message", JStr "Optimization mode must be one of: speed, balanced, quality")];
     JObj [("path", JStr "focusMode"); ("message", JStr "Required")]].
Proof.
  exact (proj2 (X9_rejected_body_is_400_with_issues sample_env
                  (JObj [("message", sample_message)]) _ eq_refl)).
Defined.

Lemma focus_issue_reported (o : list (string * json)) (msg : string) :
  string_min1 "Focus mode is required" ["focusMode"] (get "focusMode" o)
  = inl [mkIssue ["focusMode"] msg] ->
  exists error,
    safeValidateBody (JObj o) = inl error
    /\ In (JObj [("path", JStr "focusMode"); ("message", JStr msg)]) error.
Proof.
  intros Hf. unfold safeValidateBody, bodySchema. cbv zeta. rewrite Hf.
  destruct (messageSchema _ _); destruct (optimizationModeSchema _ _);
    destruct (with_default (array historyItem) _ _ _);
    destruct (with_default (array string_) _ _ _);
    destruct (with_default modelSchema _ _ (get "chatModel" o));
    destruct (with_default modelSchema _ _ (get "embeddingModel" o));
    destruct (systemInstructionsSchema _ _);
    (eexists; split; [reflexivity|]; apply in_map_iff;
     exists (mkIssue ["focusMode"] msg); split; [reflexivity|];
     cbn [issues]; rewrite ?in_app_iff; cbn; tauto).
Qed.

(** X10.  A request without [focusMode], or with an empty one, never
    reaches the handler registry: it is rejected by the schema, and the
    400 [Invalid request body] answer lists the field [focusMode] with the
    message [Required], respectively [Focus mode is required]. *)
Theorem X10_missing_focus_mode_is_an_invalid_body (env : Env) (o : list (string * json)) :
  (get "focusMode" o = None ->
   exists error,
     POST env (Some (JObj o)) = invalid_body_response error
     /\ In (JObj [("path", JStr "focusMode"); ("message", JStr "Required")]) error)
  /\ (get "focusMode" o = Some (JStr EmptyString) ->
      exists error,
        POST env (Some (JObj o)) = invalid_body_response error
        /\ In (JObj [("path", JStr "focusMode");
                     ("message", JStr "Focus mode is required")]) error).
Proof.
  split; intros Hf.
  - destruct (focus_issue_reported o "Required") as (error & V & Hin).
    { now rewrite Hf. }
    exists error. split; [|exact Hin].
    unfold POST, POST_try. cbn [bind]. rewrite V. reflexivity.
  - destruct (focus_issue_reported o "Focus mode is required") as (error & V & Hin).
    { now rewrite Hf. }
    exists error. split; [|exact Hin].
    unfold POST, POST_try. cbn [bind]. rewrite V. reflexivity.
Qed.

Lemma X10_witness :
  exists error,
    POST sample_env (Some (JObj [("message", sample_message);
                                 ("optimizationMode", JStr "speed")]))
    = invalid_body_response error
    /\ In (JObj [("path", JStr "focusMode"); ("message", JStr "Required")]) error.
Proof.
  exact (proj1 (X10_missing_focus_mode_is_an_invalid_body sample_env
                  [("message", sample_message); ("optimizationMode", JStr "speed")])
               eq_refl).
Defined.

(** ** What reaches the handler *)

(** X11.  The handler is invoked only for a validated body whose focus
    mode is registered, and then with the turn's content as query, the
    history converted entry by entry, and the body's optimization mode and
    files; both launched tasks work on the chat and message id of that
    same turn, which are not empty. *)
Theorem X11_handler_receives_the_validated_turn
    (env : Env) (req_json : Try json) (call : HandlerCall) (tasks : Launched) :
  POST env req_json = Response_stream call tasks ->
  exists data body,
    req_json = Some data
    /\ safeValidateBody data = inr body
    /\ own (focusMode body) (searchHandlers env) = Some (call_handler call)
    /\ call_query call = turn_content (message body)
    /\ String.eqb (call_query call) EmptyString = false
    /\ call_history call = map toBaseMessage (history body)
    /\ call_optimizationMode call = optimizationMode body
    /\ call_files call = files body
    /\ save_message tasks = message body
    /\ bridge_chatId tasks = turn_chatId (save_message tasks)
    /\ save_humanMessageId tasks = turn_messageId (save_message tasks)
    /\ save_focusMode tasks = focusMode body
    /\ save_files tasks = files body.
Proof.
  unfold POST, POST_try. destruct req_json as [data|]; [|discriminate].
  cbn [bind]. destruct (safeValidateBody data) as [e|body] eqn:V; [discriminate|].
  intros H. exists data, body. split; [reflexivity|]. split; [exact V|].
  pose proof (validated_content_nonempty _ _ V) as Hne.
  revert H. unfold bind, deref.
  route_cases; intros H; try discriminate; injection H as <- <-; cbn;
    repeat split; auto.
Qed.

Lemma X11_witness :
  exists call tasks,
    POST sample_env (Some (JObj sample_request)) = Response_stream call tasks
    /\ call_query call = "hello"
    /\ bridge_chatId tasks = turn_chatId (save_message tasks).
Proof.
  eexists. eexists. split; [reflexivity|].
  destruct (X11_handler_receives_the_validated_turn sample_env (Some (JObj sample_request))
              _ _ eq_refl)
    as (data & body & _ & _ & _ & _ & _ & _ & _ & _ & _ & Hchat & _).
  split; [reflexivity | exact Hchat].
Defined.

(** X12.  A JSON answer of the route has status 400 or 500, and a 500
    always carries the generic message: no detail of the failure leaves
    the process. *)
Theorem X12_json_answers_are_400_or_500
    (env : Env) (req_json : Try json) (body : json) (status : nat) :
  POST env req_json = Response_json body status ->
  status = 400 \/ (status = 500 /\ Response_json body status = generic_failure).
Proof.
  unfold POST, POST_try, generic_failure. destruct req_json as [data|]; cbn [bind].
  - destruct (safeValidateBody data) as [e|b] eqn:V.
    + intros H. injection H as <- <-. now left.
    + unfold bind, deref.
      route_cases; intros H; try discriminate; injection H as <- <-; auto.
  - intros H. injection H as <- <-. right. split; reflexivity.
Qed.

Lemma X12_witness :
  POST sample_env None = generic_failure.
Proof.
  destruct (X12_json_answers_are_400_or_500 sample_env None _ _ eq_refl) as [H|[_ H]].
  - discriminate H.
  - exact H.
Defined.

Example custom_request_is_valid :
  exists body, safeValidateBody (JObj custom_request) = inr body
               /\ provider (chatModel body) = Some "custom_openai".
Proof. eexists. split; reflexivity. Qed.

(** X13.  The [custom_openai] provider still goes through the catalog.
    For a validated body naming it, a catalog without a [custom_openai]
    entry makes the route answer with the generic 500; and whenever such a
    request reaches the handler, the chat model is the one built from the
    configured key, model name and base URL with temperature 0.7, whatever
    models the catalog entry lists. *)
Theorem X13_custom_openai_needs_a_catalog_entry (env : Env) (data : json) (body : Body) :
  safeValidateBody data = inr body ->
  provider (chatModel body) = Some "custom_openai" ->
  (own "custom_openai" (chatModelProviders env) = None ->
   POST env (Some data) = generic_failure)
  /\ (forall call tasks,
        POST env (Some data) = Response_stream call tasks ->
        call_llm call =
        ChatOpenAI (customOpenaiApiKey env) (customOpenaiModelName env)
                   (customOpenaiApiUrl env) 7).
Proof.
  intros V Hp. pose proof (validated_content_nonempty _ _ V) as Hne.
  unfold POST, POST_try. cbn [bind]. rewrite V. cbv zeta. rewrite Hne, Hp.
  cbn [or_else]. change (String.eqb "custom_openai" "custom_openai") with true.
  cbv iota. unfold prop. cbn [nullish].
  split.
  - intros Hnone. rewrite Hnone. reflexivity.
  - intros call tasks. unfold bind, deref.
    route_cases; intros H; try discriminate; injection H as <- <-; reflexivity.
Qed.

Lemma X13_witness :
  POST sample_env (Some (JObj custom_request)) = generic_failure
  /\ exists call tasks,
       POST custom_env (Some (JObj custom_request)) = Response_stream call tasks
       /\ call_llm call = ChatOpenAI "key" "custom model" "http://localhost" 7.
Proof.
  split.
  - exact (proj1 (X13_custom_openai_needs_a_catalog_entry sample_env (JObj custom_request)
                    _ eq_refl eq_refl) eq_refl).
  - eexists. eexists. split; [reflexivity|].
    exact (proj2 (X13_custom_openai_needs_a_catalog_entry custom_env (JObj custom_request)
                    _ eq_refl eq_refl) _ _ eq_refl).
Defined.

(** X14.  With no override the chat model is the first model of the first
    provider.  For a validated body that names neither provider nor model,
    a request that reaches the handler carries the handle of the first
    entry of the catalog's first provider, and no other entry is looked at. *)
Theorem X14_default_chat_model_is_the_first_entry
    (env : Env) (data : json) (body : Body) (call : HandlerCall) (tasks : Launched)
    (p n : string) (e : ModelEntry) (ms : list (string * ModelEntry))
    (ps : list (string * list (string * ModelEntry))) :
  safeValidateBody data = inr body ->
  provider (chatModel body) = None ->
  name (chatModel body) = None ->
  chatModelProviders env = (p, (n, e) :: ms) :: ps ->
  POST env (Some data) = Response_stream call tasks ->
  exists handle, model e = Some handle /\ call_llm call = catalog_model handle.
Proof.
  intros V Hp Hn Hcat. pose proof (validated_content_nonempty _ _ V) as Hne.
  unfold POST, POST_try. cbn [bind]. rewrite V. cbv zeta. rewrite Hne, Hp, Hn, Hcat.
  cbn [or_else first_key]. unfold prop. cbn [nullish own].
  rewrite String.eqb_refl. cbn [deref bind own first_key or_else nullish].
  rewrite String.eqb_refl. unfold bind, deref.
  route_cases; intros H; try discriminate; injection H as <- <-;
    eexists; split; reflexivity.
Qed.

Lemma X14_witness :
  exists call tasks,
    POST sample_env (Some (JObj sample_request)) = Response_stream call tasks
    /\ call_llm call = catalog_model "chat handle".
Proof.
  eexists. eexists. split; [reflexivity|].
  destruct (X14_default_chat_model_is_the_first_entry sample_env (JObj sample_request)
              sample_body _ _ "openai" "gpt-4o" (mkModelEntry (Some "chat handle")) [] []
              eq_refl eq_refl eq_refl eq_refl eq_refl)
    as (handle & Hm & Hl).
  injection Hm as <-. exact Hl.
Defined.

(** ** What validation returns *)

(** The optional fields of a body that passes the schema. *)
Lemma bodySchema_optional_fields (o : list (string * json)) (body : Body) :
  bodySchema (JObj o) = inr body ->
  with_default (array historyItem) [] ["history"] (get "history" o) = inr (history body)
  /\ with_default (array string_) [] ["files"] (get "files" o) = inr (files body)
  /\ with_default modelSchema (mkModelRef None None) ["chatModel"] (get "chatModel" o)
     = inr (chatModel body)
  /\ with_default modelSchema (mkModelRef None None) ["embeddingModel"]
       (get "embeddingModel" o) = inr (embeddingModel body).
Proof.
  unfold bodySchema. cbv zeta.
  destruct (messageSchema _ _); [discriminate|].
  destruct (optimizationModeSchema _ _); [discriminate|].
  destruct (string_min1 _ _ _); [discriminate|].
  destruct (with_default (array historyItem) _ _ _) eqn:Eh; [discriminate|].
  destruct (with_default (array string_) _ _ _) eqn:Ef; [discriminate|].
  destruct (with_default modelSchema _ _ (get "chatModel" o)) eqn:Ec; [discriminate|].
  destruct (with_default modelSchema _ _ (get "embeddingModel" o)) eqn:Ee; [discriminate|].
  destruct (systemInstructionsSchema _ _); [discriminate|].
  intros H. injection H as <-. cbn [history files chatModel embeddingModel]. auto.
Qed.

(** X15.  Optional fields left out take their defaults: a validated body
    without [history] has the empty history, without [files] no files, and
    without [chatModel] or [embeddingModel] a model reference that names
    neither provider nor model. *)
Theorem X15_absent_optional_fields_take_defaults (o : list (string * json)) (body : Body) :
  safeValidateBody (JObj o) = inr body ->
  (get "history" o = None -> history body = [])
  /\ (get "files" o = None -> files body = [])
  /\ (get "chatModel" o = None -> chatModel body = mkModelRef None None)
  /\ (get "embeddingModel" o = None -> embeddingModel body = mkModelRef None None).
Proof.
  intros V. apply safeValidateBody_inr, bodySchema_optional_fields in V.
  destruct V as (Hh & Hf & Hc & He).
  repeat split; intros Habs;
    [rewrite Habs in Hh; cbn in Hh; now injection Hh
    |rewrite Habs in Hf; cbn in Hf; now injection Hf
    |rewrite Habs in Hc; cbn in Hc; now injection Hc
    |rewrite Habs in He; cbn in He; now injection He].
Qed.

Lemma X15_witness :
  history sample_body = [] /\ files sample_body = []
  /\ chatModel sample_body = mkModelRef None None.
Proof.
  destruct (X15_absent_optional_fields_take_defaults sample_request sample_body eq_refl)
    as (Hh & Hf & Hc & _).
  split; [exact (Hh eq_refl) | split; [exact (Hf eq_refl) | exact (Hc eq_refl)]].
Defined.

Lemma array_items_round_trip {A} (item : list string -> option json -> Parse A)
    (back : A -> json) (path : list string) (vs : list json) :
  (forall p v a, item p (Some v) = inr a -> v = back a) ->
  forall i l, array_items item path i vs = inr l -> vs = map back l.
Proof.
  intros Hitem. induction vs as [|v vs IH]; intros i l; cbn [array_items].
  - intros H. now injection H as <-.
  - destruct (item (path ++ [index i])%list (Some v)) as [e|a] eqn:Ea.
    + destruct (array_items item path (S i) vs); discriminate.
    + destruct (array_items item path (S i) vs) as [e|l'] eqn:El; [discriminate|].
      intros H. injection H as <-. cbn [map].
      now rewrite (Hitem _ _ _ Ea), (IH _ _ El).
Qed.

Lemma historyItem_round_trip (p : list string) (v : json) (a : string * string) :
  historyItem p (Some v) = inr a -> v = history_json a.
Proof.
  unfold historyItem.
  destruct v as [| | | | [|x [|y more]] |]; cbv zeta; try discriminate.
  destruct more; [|discriminate].
  destruct x; cbn; try discriminate; destruct y; cbn; try discriminate.
  intros H. now injection H as <-.
Qed.

Lemma string__round_trip (p : list string) (v : json) (s : string) :
  string_ p (Some v) = inr s -> v = JStr s.
Proof. destruct v; cbn; try discriminate. intros H. now injection H as <-. Qed.

(** X16.  Validation neither drops nor reorders.  When a body passes the
    schema, a [history] it carries is exactly the array of two-string
    arrays that the parsed history lists, in order, and a [files] field is
    exactly the array of the parsed file references. *)
Theorem X16_history_and_files_are_taken_as_sent
    (o : list (string * json)) (body : Body) (v : json) :
  safeValidateBody (JObj o) = inr body ->
  (get "history" o = Some v -> v = JArr (map history_json (history body)))
  /\ (get "files" o = Some v -> v = JArr (map JStr (files body))).
Proof.
  intros V. apply safeValidateBody_inr, bodySchema_optional_fields in V.
  destruct V as (Hh & Hf & _).
  split; intros Hget.
  - rewrite Hget in Hh. cbn [with_default] in Hh. unfold array in Hh.
    destruct v as [| | | | vs |]; try discriminate.
    f_equal. exact (array_items_round_trip historyItem history_json _ vs
                      historyItem_round_trip 0 _ Hh).
  - rewrite Hget in Hf. cbn [with_default] in Hf. unfold array in Hf.
    destruct v as [| | | | vs |]; try discriminate.
    f_equal. exact (array_items_round_trip string_ JStr _ vs string__round_trip 0 _ Hf).
Qed.

Lemma X16_witness :
  exists body,
    safeValidateBody
      (JObj (sample_request ++ [("history", JArr [history_json ("human", "hi");
                                                  history_json ("assistant", "hello")])]))
    = inr body
    /\ map history_json (history body) =
       [history_json ("human", "hi"); history_json ("assistant", "hello")].
Proof.
  eexists. split; [reflexivity|].
  destruct (X16_history_and_files_are_taken_as_sent
              (sample_request ++ [("history", JArr [history_json ("human", "hi");
                                                    history_json ("assistant", "hello")])])
              _ (JArr [history_json ("human", "hi"); history_json ("assistant", "hello")])
              eq_refl) as [H _].
  exact (f_equal (fun j => match j with JArr l => l | _ => [] end) (eq_sym (H eq_refl))).
Defined.

(** ** Resubmission on the tables the route builds *)

Lemma find_app_some {A} (p : A -> bool) (l l' : list A) (u : A) :
  find p l = Some u -> find p (l ++ l') = Some u.
Proof.
  induction l as [|x l IH]; cbn; [discriminate|].
  destruct (p x); [auto | exact IH].
Qed.

Lemma find_filter_some {A} (p q : A -> bool) (l : list A) (u : A) :
  find p l = Some u -> q u = true -> find p (filter q l) = Some u.
Proof.
  intros Hf Hq. induction l as [|x l IH]; cbn in *; [discriminate|].
  destruct (p x) eqn:Hp.
  - injection Hf as ->. rewrite Hq. cbn. now rewrite Hp.
  - destruct (q x); cbn; [rewrite Hp|]; auto.
Qed.


(** Empty storage has the property, and both tasks of a turn keep it: the
    reconciler inserts a user Message only under a [messageId] no row has,
    and the bridge appends rows that are not user Messages. *)
Lemma user_rows_first_empty (s : Store) : messages s = [] -> user_rows_first s.
Proof. intros E u Hin. rewrite E in Hin. destruct Hin. Qed.

Lemma reconcile_keeps_user_rows_first
    (Date_toString : nat -> string) (getFileDetails : string -> json)
    (message : Turn) (hm fm : string) (files : list string) (w : World) :
  user_rows_first (store w) ->
  user_rows_first (store (handleHistorySave Date_toString getFileDetails
                            message hm fm files w)).
Proof.
  intros Hinv u Hin Hrole.
  pose proof (reconcile_messages Date_toString getFileDetails message hm fm files w) as R.
  cbv zeta in R. unfold findFirst_message at 1.
  destruct (findFirst_message hm (store w)) as [found|] eqn:Hm.
  - destruct R as [E _]. rewrite E in Hin |- *.
    apply filter_In in Hin as [Hin Hq].
    apply find_filter_some; [exact (Hinv u Hin Hrole) | exact Hq].
  - destruct R as (createdAt & E & _). rewrite E in Hin |- *.
    apply in_app_iff in Hin as [Hin|[<-|[]]].
    + apply find_app_some. exact (Hinv u Hin Hrole).
    + cbn [Msg.messageId]. unfold findFirst_message in Hm.
      rewrite (find_app_none _ _ _ Hm). cbn. now rewrite String.eqb_refl.
Qed.

Lemma emit_all_keeps_user_rows_first
    (entropy : nat -> Byte.byte) (Date_toString : nat -> string)
    (es : list Event) (b : Bridge) :
  user_rows_first (store (world b)) ->
  user_rows_first (store (world (emit_all entropy Date_toString es b))).
Proof.
  intros Hinv u Hin Hrole. unfold findFirst_message.
  destruct (emit_all_store entropy Date_toString es b) as (_ & new & E & _ & _ & Hnew).
  rewrite E in Hin |- *. apply in_app_iff in Hin as [Hin|Hin].
  - apply find_app_some. exact (Hinv u Hin Hrole).
  - rewrite Forall_forall in Hnew. destruct (Hnew u Hin) as (_ & _ & [Hr|Hr]);
      rewrite Hr in Hrole; discriminate.
Qed.



(** Hence a served turn, reconciler then events, keeps the property. *)
Lemma serve_turn_keeps_user_rows_first
    (entropy : nat -> Byte.byte) (Date_toString : nat -> string)
    (getFileDetails : string -> json) (tasks : Launched) (es : list Event) (w : World) :
  user_rows_first (store w) ->
  user_rows_first
    (store (world (serve_turn entropy Date_toString getFileDetails tasks es w))).
Proof.
  intros Hinv. unfold serve_turn. cbv zeta.
  apply emit_all_keeps_user_rows_first. cbn [world].
  apply reconcile_keeps_user_rows_first. exact Hinv.
Qed.
